(** * FocusFlow: task list, session recorder, settings store, timer and
      progress aggregation

    A shallow embedding of the state-transition logic of the FocusFlow
    application:

    - [src/hooks/useFirestore.ts]           (hooks [useTasks],
      [usePomodoroSessions], [useUserSettings]),
    - [src/components/tasks/TaskManager.tsx] ([handleDragEnd]),
    - [src/components/pomodoro/PomodoroTimer.tsx] (the timer),
    - [src/components/progress/ProgressTracker.tsx] (the chart effect).

    Modelling conventions.
    - JavaScript numbers that hold integers (orders, counters, seconds,
      epoch milliseconds) are [Z].
    - A [Date] and a Firestore [Timestamp] are both the number of
      milliseconds since the epoch ([Timestamp.fromDate] keeps the
      millisecond exactly).
    - A Firestore collection is a finite map from document id to document
      data.  The id chosen by [addDoc] and the reading of the clock are
      inputs of the operation ([Env]).
    - Of the ways a store call can reject, the model keeps the one the code
      relies on: [updateDoc] on a document that does not exist.  Network
      and permission failures are outside the model.
    - An [async] function is run to completion as one step: a theorem
      about a call says what that call does when no other handler runs
      while it waits at an [await].  Nothing is stated about handlers
      interleaved with a suspended call.
    - The time zone of the browser is an input of the operations that read
      local dates ([ProgressTracker.TimeZone]). *)

From Stdlib Require Import ZArith List Lia Permutation Sorted.
From stdpp Require Import gmap strings list fin_maps sorting.

Local Open Scope Z_scope.

(** ** Data model ([useFirestore.ts], lines 20-40) *)

Module Task.
Record t := mk {
  id : option string;
  title : string;
  description : option string;
  completed : bool;
  createdAt : Z;
  updatedAt : Z;
  pomodorosCompleted : Z;
  userId : string;
  order : Z
}.

Definition set_id (i : option string) (x : t) : t :=
  mk i (title x) (description x) (completed x) (createdAt x) (updatedAt x)
     (pomodorosCompleted x) (userId x) (order x).

Definition set_order (o : Z) (x : t) : t :=
  mk (id x) (title x) (description x) (completed x) (createdAt x)
     (updatedAt x) (pomodorosCompleted x) (userId x) o.

(** [Partial<Task>]: every field may be absent. *)
Record partial := mkPartial {
  p_id : option (option string);
  p_title : option string;
  p_description : option (option string);
  p_completed : option bool;
  p_createdAt : option Z;
  p_updatedAt : option Z;
  p_pomodorosCompleted : option Z;
  p_userId : option string;
  p_order : option Z
}.

(** The object spread [{ ...x, ...p }]. *)
Definition spread (x : t) (p : partial) : t :=
  mk (default (id x) (p_id p))
     (default (title x) (p_title p))
     (default (description x) (p_description p))
     (default (completed x) (p_completed p))
     (default (createdAt x) (p_createdAt p))
     (default (updatedAt x) (p_updatedAt p))
     (default (pomodorosCompleted x) (p_pomodorosCompleted p))
     (default (userId x) (p_userId p))
     (default (order x) (p_order p)).

Definition with_updatedAt (now : Z) (p : partial) : partial :=
  mkPartial (p_id p) (p_title p) (p_description p) (p_completed p)
            (p_createdAt p) (Some now) (p_pomodorosCompleted p)
            (p_userId p) (p_order p).
End Task.

Inductive SessionType := work_session | break_session.

#[global] Instance SessionType_eq_dec : EqDecision SessionType.
Proof. solve_decision. Defined.

Module PomodoroSession.
Record t := mk {
  id : option string;
  taskId : string;
  startTime : Z;
  endTime : Z;
  duration : Z;
  type : SessionType;
  userId : string
}.

(** [Omit<PomodoroSession, 'id' | 'userId'>], the argument of
    [addSession]. *)
Record data := mkData {
  d_taskId : string;
  d_startTime : Z;
  d_endTime : Z;
  d_duration : Z;
  d_type : SessionType
}.

Definition set_id (i : option string) (x : t) : t :=
  mk i (taskId x) (startTime x) (endTime x) (duration x) (type x) (userId x).

(** [{ ...sessionData, userId }]. *)
Definition ofData (d : data) (u : string) : t :=
  mk None (d_taskId d) (d_startTime d) (d_endTime d) (d_duration d)
     (d_type d) u.
End PomodoroSession.

Module Settings.
Record t := mk {
  workDuration : Z;
  shortBreakDuration : Z;
  longBreakDuration : Z;
  longBreakInterval : Z
}.

(** The initial value of the [settings] state of [useUserSettings]. *)
Definition defaults : t := mk 25 5 15 4.
End Settings.

(** A document of the [userSettings] collection: the four settings and,
    when the document was written by the creation path, a [userId] field. *)
Record SettingsDoc := mkSettingsDoc {
  sd_settings : Settings.t;
  sd_userId : option string
}.

Record User := mkUser { uid : string }.

(** ** The document store *)

Record Firestore := mkFirestore {
  col_tasks : gmap string Task.t;
  col_pomodoroSessions : gmap string PomodoroSession.t;
  col_userSettings : gmap string SettingsDoc
}.

Definition emptyStore : Firestore := mkFirestore ∅ ∅ ∅.

Definition set_tasks (m : gmap string Task.t) (db : Firestore) : Firestore :=
  mkFirestore m (col_pomodoroSessions db) (col_userSettings db).

Definition set_pomodoroSessions (m : gmap string PomodoroSession.t)
    (db : Firestore) : Firestore :=
  mkFirestore (col_tasks db) m (col_userSettings db).

Definition set_userSettings (m : gmap string SettingsDoc) (db : Firestore)
    : Firestore :=
  mkFirestore (col_tasks db) (col_pomodoroSessions db) m.

(** [updateDoc(ref, fields)]: merges the fields into the document, and
    rejects ([None]) when the document does not exist. *)
Definition updateDoc {D F : Type} (merge : D -> F -> D)
    (col : gmap string D) (key : string) (fields : F)
    : option (gmap string D) :=
  match col !! key with
  | Some d => Some (<[key := merge d fields]> col)
  | None => None
  end.

(** [addDoc(collection, data)] with the id the store picked. *)
Definition addDoc {D : Type} (col : gmap string D) (autoId : string)
    (data : D) : gmap string D :=
  <[autoId := data]> col.

(** [deleteDoc(ref)]: succeeds whether or not the document exists. *)
Definition deleteDoc {D : Type} (col : gmap string D) (key : string)
    : gmap string D :=
  delete key col.

(** What an operation reads from outside: the signed-in user of
    [useAuth()], the clock, and the id the store gives to a new document. *)
Record Env := mkEnv {
  currentUser : option User;
  now : Z;
  autoId : string
}.

(** ** [useTasks] ([useFirestore.ts], lines 42-183) *)

Module useTasks.
Record state := mk {
  tasks : list Task.t;
  loading : bool;
  error : option string
}.

Definition setTasks (l : list Task.t) (s : state) : state :=
  mk l (loading s) (error s).
Definition setError (e : string) (s : state) : state :=
  mk (tasks s) (loading s) (Some e).

(** [Math.max(...xs)] on a non-empty array. *)
Definition Math_max (x : Z) (xs : list Z) : Z := fold_left Z.max xs x.

Definition highestOrder (ts : list Task.t) : Z :=
  match map Task.order ts with
  | [] => -1
  | o :: os => Math_max o os
  end.

(** The argument of [addTask]: of the four fields of its type only
    [title] and [description] reach the new task, [completed] and
    [pomodorosCompleted] are overwritten. *)
Record taskData := mkData {
  d_title : string;
  d_description : option string
}.

Definition newTask (u : User) (now : Z) (ts : list Task.t) (d : taskData)
    : Task.t :=
  Task.mk None (d_title d) (d_description d) false now now 0 (uid u)
          (highestOrder ts + 1).

Definition addTask (env : Env) (d : taskData) (db : Firestore) (s : state)
    : option Task.t * Firestore * state :=
  match currentUser env with
  | None => (None, db, s)
  | Some u =>
      let nt := newTask u (now env) (tasks s) d in
      let db' := set_tasks (addDoc (col_tasks db) (autoId env) nt) db in
      let taskWithId := Task.set_id (Some (autoId env)) nt in
      (Some taskWithId, db', setTasks (tasks s ++ [taskWithId]) s)
  end.

Definition updateTask (env : Env) (id : string) (p : Task.partial)
    (db : Firestore) (s : state) : bool * Firestore * state :=
  match currentUser env with
  | None => (false, db, s)
  | Some _ =>
      let updatedTask := Task.with_updatedAt (now env) p in
      match updateDoc Task.spread (col_tasks db) id updatedTask with
      | Some m =>
          (true, set_tasks m db,
           setTasks (map (fun task =>
                            if decide (Task.id task = Some id)
                            then Task.spread task updatedTask else task)
                         (tasks s)) s)
      | None => (false, db, setError "Failed to update task" s)
      end
  end.

Definition deleteTask (env : Env) (id : string) (db : Firestore)
    (s : state) : bool * Firestore * state :=
  match currentUser env with
  | None => (false, db, s)
  | Some _ =>
      (true, set_tasks (deleteDoc (col_tasks db) id) db,
       setTasks (List.filter
                   (fun task => negb (bool_decide (Task.id task = Some id)))
                   (tasks s)) s)
  end.

(** [xs.map((task, index) => ({ ...task, order: index }))]. *)
Fixpoint reindexFrom (i : Z) (ts : list Task.t) : list Task.t :=
  match ts with
  | [] => []
  | task :: rest => Task.set_order i task :: reindexFrom (i + 1) rest
  end.

Definition reindex (ts : list Task.t) : list Task.t := reindexFrom 0 ts.

(** The writes of [reorderTasks].  The array of promises is built left to
    right; [task.id!] on a task without id makes [doc] throw, which stops
    the construction ([thrown]); an [updateDoc] on a missing document
    rejects, which makes [Promise.all] reject ([rejected]) while the
    other writes go through. *)
Inductive writes := written | rejected | thrown.

Definition orderFields (o now : Z) : Task.partial :=
  Task.mkPartial None None None None None (Some now) None None (Some o).

Fixpoint updateAll (now : Z) (ts : list Task.t) (m : gmap string Task.t)
    (ok : writes) : writes * gmap string Task.t :=
  match ts with
  | [] => (ok, m)
  | task :: rest =>
      match Task.id task with
      | None => (thrown, m)
      | Some i =>
          match updateDoc Task.spread m i (orderFields (Task.order task) now) with
          | Some m' => updateAll now rest m' ok
          | None => updateAll now rest m rejected
          end
      end
  end.

Definition reorderTasks (env : Env) (reorderedTasks : list Task.t)
    (db : Firestore) (s : state) : bool * Firestore * state :=
  match currentUser env with
  | None => (false, db, s)
  | Some _ =>
      let updatedTasks := reindex reorderedTasks in
      match updateAll (now env) updatedTasks (col_tasks db) written with
      | (written, m) => (true, set_tasks m db, setTasks updatedTasks s)
      | (_, m) => (false, set_tasks m db, setError "Failed to reorder tasks" s)
      end
  end.

Definition setLoading (b : bool) (s : state) : state :=
  mk (tasks s) b (error s).

(** The result of
    [getDocs(query(collection(db, 'tasks'), where('userId', '==', uid),
    orderBy('order')))]: the documents of the user by ascending [order],
    documents of equal order by ascending document id (the store's
    tie-break). *)
Definition docBefore (a b : string * Task.t) : bool :=
  (Task.order a.2 <? Task.order b.2)
  || ((Task.order a.2 =? Task.order b.2) && String.leb a.1 b.1).

Fixpoint insertDoc (a : string * Task.t) (xs : list (string * Task.t))
    : list (string * Task.t) :=
  match xs with
  | [] => [a]
  | b :: rest => if docBefore a b then a :: b :: rest else b :: insertDoc a rest
  end.

Definition queryTasks (uid : string) (col : gmap string Task.t)
    : list (string * Task.t) :=
  foldr insertDoc []
    (List.filter (fun kd => bool_decide (Task.userId kd.2 = uid))
                 (map_to_list col)).

(** [{ id: doc.id, ...doc.data() }]: an [id] field of the data, if there
    is one, wins over the document id. *)
Definition withId (kd : string * Task.t) : Task.t :=
  match Task.id kd.2 with
  | Some _ => kd.2
  | None => Task.set_id (Some kd.1) kd.2
  end.

(** [fetchTasks] (lines 48-76), the query taken as succeeding. *)
Definition fetchTasks (env : Env) (db : Firestore) (s : state) : state :=
  match currentUser env with
  | None => setLoading false (setTasks [] s)
  | Some u =>
      setLoading false
        (setTasks (map withId (queryTasks (uid u) (col_tasks db)))
                  (setLoading true s))
  end.
End useTasks.

(** ** [usePomodoroSessions] ([useFirestore.ts], lines 185-267) *)

Module usePomodoroSessions.
Record state := mk {
  sessions : list PomodoroSession.t;
  loading : bool;
  error : option string
}.

Definition setSessions (l : list PomodoroSession.t) (s : state) : state :=
  mk l (loading s) (error s).

(** [x || 0] on a number. *)
Definition orZero (x : Z) : Z := if x =? 0 then 0 else x.

(** The fields written to the task by a work session. *)
Definition counterFields (stored : Task.t) (now : Z) : Task.partial :=
  Task.mkPartial None None None None None (Some now)
    (Some (orZero (Task.pomodorosCompleted stored) + 1)) None None.

(** The counter update of [addSession]: [getDoc] on the task, and when it
    exists an [updateDoc] computed from the data just read. *)
Definition bumpCounter (now : Z) (taskId : string)
    (m : gmap string Task.t) : gmap string Task.t :=
  match m !! taskId with
  | Some taskData =>
      match updateDoc Task.spread m taskId (counterFields taskData now) with
      | Some m' => m'
      | None => m
      end
  | None => m
  end.

Definition addSession (env : Env) (d : PomodoroSession.data)
    (db : Firestore) (s : state)
    : option PomodoroSession.t * Firestore * state :=
  match currentUser env with
  | None => (None, db, s)
  | Some u =>
      let newSession := PomodoroSession.ofData d (uid u) in
      let db1 :=
        set_pomodoroSessions
          (addDoc (col_pomodoroSessions db) (autoId env) newSession) db in
      let sessionWithId :=
        PomodoroSession.set_id (Some (autoId env)) newSession in
      let s' := setSessions (sessionWithId :: sessions s) s in
      let db2 :=
        match PomodoroSession.d_type d with
        | work_session =>
            set_tasks
              (bumpCounter (now env) (PomodoroSession.d_taskId d)
                           (col_tasks db1)) db1
        | break_session => db1
        end in
      (Some sessionWithId, db2, s')
  end.
End usePomodoroSessions.

(** ** [useUserSettings] ([useFirestore.ts], lines 269-347) *)

Module useUserSettings.
Record state := mk {
  settings : Settings.t;
  loading : bool;
  error : option string
}.

Definition initial : state := mk Settings.defaults true None.

Definition setSettings (x : Settings.t) (s : state) : state :=
  mk x (loading s) (error s).
Definition setLoading (b : bool) (s : state) : state :=
  mk (settings s) b (error s).

(** [updateDoc(settingsRef, newSettings)] overwrites the four settings
    of the document and keeps its other field. *)
Definition mergeSettings (d : SettingsDoc) (x : Settings.t) : SettingsDoc :=
  mkSettingsDoc x (sd_userId d).

Definition updateSettings (env : Env) (newSettings : Settings.t)
    (db : Firestore) (s : state) : bool * Firestore * state :=
  match currentUser env with
  | None => (false, db, s)
  | Some u =>
      match updateDoc mergeSettings (col_userSettings db) (uid u) newSettings with
      | Some m => (true, set_userSettings m db, setSettings newSettings s)
      | None =>
          (* the [catch] branch: [addDoc(collection(db, 'userSettings'), ...)] *)
          (true,
           set_userSettings
             (addDoc (col_userSettings db) (autoId env)
                     (mkSettingsDoc newSettings (Some (uid u)))) db,
           setSettings newSettings s)
      end
  end.

Definition fetchSettings (env : Env) (db : Firestore) (s : state)
    : Firestore * state :=
  match currentUser env with
  | None => (db, setLoading false s)
  | Some u =>
      match col_userSettings db !! uid u with
      | Some docSnap => (db, setLoading false (setSettings (sd_settings docSnap) s))
      | None =>
          let '(_, db', s') := updateSettings env (settings s) db (setLoading true s) in
          (db', setLoading false s')
      end
  end.
End useUserSettings.

(** ** [TaskManager] ([TaskManager.tsx], lines 15-58) *)

Module TaskManager.
Inductive Filter := all | active | completed.

Definition getFilteredTasks (filter : Filter) (tasks : list Task.t)
    : list Task.t :=
  match filter with
  | active => List.filter (fun task => negb (Task.completed task)) tasks
  | completed => List.filter (fun task => Task.completed task) tasks
  | all => tasks
  end.

(** [DropResult]: the position the item was taken from and, when it was
    dropped on the list, the position it was dropped at. *)
Record DropResult := mkDrop {
  source_index : nat;
  destination_index : option nat
}.

(** [const [removed] = xs.splice(i, 1)] for a position [i] of [xs]. *)
Definition spliceOut {A} (i : nat) (xs : list A) : option (A * list A) :=
  match xs !! i with
  | Some x => Some (x, take i xs ++ drop (S i) xs)
  | None => None
  end.

(** [xs.splice(i, 0, x)]: a position past the end inserts at the end. *)
Definition spliceIn {A} (i : nat) (x : A) (xs : list A) : list A :=
  take i xs ++ x :: drop i xs.

(** [xs.sort((a, b) => a.order - b.order)]: the array sort is stable, so
    for this comparator its result is the one of stable insertion. *)
Fixpoint insertByOrder (a : Task.t) (xs : list Task.t) : list Task.t :=
  match xs with
  | [] => [a]
  | b :: rest =>
      if Task.order a - Task.order b <=? 0
      then a :: b :: rest
      else b :: insertByOrder a rest
  end.

Definition sortByOrder (xs : list Task.t) : list Task.t :=
  foldr insertByOrder [] xs.

Definition nonFilteredTasks (filteredTasks tasks : list Task.t)
    : list Task.t :=
  List.filter
    (fun task =>
       negb (existsb (fun filteredTask =>
                        bool_decide (Task.id filteredTask = Task.id task))
                     filteredTasks))
    tasks.

(** What [handleDragEnd] does with a drop: nothing (the early returns),
    or a call of [reorderTasks].  The drag-and-drop library reports as
    source the index of a rendered item, that is a position of the
    filtered list; for any other index the model stops at [notAnItem]. *)
Inductive outcome :=
| ignored
| notAnItem
| reorder (updatedTasks : list Task.t).

Definition dragOutcome (filter : Filter) (tasks : list Task.t)
    (result : DropResult) : outcome :=
  match destination_index result with
  | None => ignored
  | Some endIndex =>
      let startIndex := source_index result in
      if decide (startIndex = endIndex) then ignored
      else
        let filteredTasks := getFilteredTasks filter tasks in
        match spliceOut startIndex filteredTasks with
        | None => notAnItem
        | Some (removed, rest) =>
            let reordered := spliceIn endIndex removed rest in
            let allTasks :=
              sortByOrder (reordered ++ nonFilteredTasks filteredTasks tasks) in
            reorder (useTasks.reindex allTasks)
        end
  end.

Definition handleDragEnd (env : Env) (filter : Filter) (result : DropResult)
    (db : Firestore) (s : useTasks.state) : Firestore * useTasks.state :=
  match dragOutcome filter (useTasks.tasks s) result with
  | reorder updatedTasks =>
      let '(_, db', s') := useTasks.reorderTasks env updatedTasks db s in
      (db', s')
  | _ => (db, s)
  end.

(** [handleToggleComplete] (lines 60-62): [updateTask(taskId, { completed })]. *)
Definition handleToggleComplete (env : Env) (taskId : string)
    (isCompleted : bool) (db : Firestore) (s : useTasks.state)
    : Firestore * useTasks.state :=
  let '(_, db', s') :=
    useTasks.updateTask env taskId
      (Task.mkPartial None None None (Some isCompleted) None None None None
                      None)
      db s in
  (db', s').
End TaskManager.


(** ** [PomodoroTimer] ([PomodoroTimer.tsx], lines 8-212)

    The state of the component is its [useState] cells and the
    [startTimeRef] reference.  [handleTimerComplete] runs from the interval
    callback and so reads [mode], [selectedTaskId] and [completedPomodoros]
    as they were when the timer was started; none of the three can change
    while the timer runs (a mode switch stops it, the task selector is
    disabled), so the model reads them from the state. *)

Module PomodoroTimer.
Inductive TimerMode := work | shortBreak | longBreak.

#[global] Instance TimerMode_eq_dec : EqDecision TimerMode.
Proof. solve_decision. Defined.

Record state := mk {
  timeLeft : Z;
  isActive : bool;
  mode : TimerMode;
  selectedTaskId : option string;
  completedPomodoros : Z;
  startTimeRef : option Z
}.

Definition set_timeLeft (x : Z) (s : state) : state :=
  mk x (isActive s) (mode s) (selectedTaskId s) (completedPomodoros s)
     (startTimeRef s).
Definition set_isActive (x : bool) (s : state) : state :=
  mk (timeLeft s) x (mode s) (selectedTaskId s) (completedPomodoros s)
     (startTimeRef s).
Definition set_mode (x : TimerMode) (s : state) : state :=
  mk (timeLeft s) (isActive s) x (selectedTaskId s) (completedPomodoros s)
     (startTimeRef s).
Definition set_selectedTaskId (x : option string) (s : state) : state :=
  mk (timeLeft s) (isActive s) (mode s) x (completedPomodoros s)
     (startTimeRef s).
Definition set_completedPomodoros (x : Z) (s : state) : state :=
  mk (timeLeft s) (isActive s) (mode s) (selectedTaskId s) x
     (startTimeRef s).
Definition set_startTimeRef (x : option Z) (s : state) : state :=
  mk (timeLeft s) (isActive s) (mode s) (selectedTaskId s)
     (completedPomodoros s) x.

(** The [switch (mode)] that computes [duration]. *)
Definition modeDuration (settings : Settings.t) (m : TimerMode) : Z :=
  match m with
  | work => Settings.workDuration settings * 60
  | shortBreak => Settings.shortBreakDuration settings * 60
  | longBreak => Settings.longBreakDuration settings * 60
  end.

Definition initial (settings : Settings.t) : state :=
  mk (Settings.workDuration settings * 60) false work None 0 None.

(** Truthiness of [selectedTaskId]: neither [null] nor the empty string. *)
Definition taskSelected (o : option string) : bool :=
  match o with
  | Some s => negb (bool_decide (s = ""))
  | None => false
  end.

(** The effect on [[mode, settings]] (lines 27-43). *)
Definition modeEffect (settings : Settings.t) (s : state) : state :=
  set_timeLeft (modeDuration settings (mode s)) s.

(** [setMode(m)]: a state cell set to the value it holds does not render
    again, and the effect on [mode] does not run. *)
Definition setMode (settings : Settings.t) (m : TimerMode) (s : state)
    : state :=
  if decide (m = mode s) then s else modeEffect settings (set_mode m s).

(** The effect on [[isActive]] (lines 46-72), as far as the state goes:
    when the timer becomes active and no start is recorded, record it. *)
Definition activeEffect (now : Z) (s : state) : state :=
  if isActive s then
    match startTimeRef s with
    | None => set_startTimeRef (Some now) s
    | Some _ => s
    end
  else s.

Definition setIsActive (now : Z) (b : bool) (s : state) : state :=
  if decide (b = isActive s) then s else activeEffect now (set_isActive b s).

Definition selectTask (value : string) (s : state) : state :=
  set_selectedTaskId (if bool_decide (value = "") then None else Some value) s.

(** [toggleTimer] (lines 119-127); the second component is the [alert]
    shown to the user, if any. *)
Definition toggleTimer (now : Z) (s : state) : state * option string :=
  if negb (isActive s) && bool_decide (mode s = work)
     && negb (taskSelected (selectedTaskId s))
  then (s, Some "Please select a task before starting a work session")
  else (setIsActive now (negb (isActive s)) s, None).

Definition resetTimer (settings : Settings.t) (s : state) : state :=
  set_startTimeRef None
    (set_timeLeft (modeDuration settings (mode s)) (set_isActive false s)).

(** [switchMode] (lines 199-212); [confirmed] is the answer to
    [window.confirm], asked only while the timer runs. *)
Definition switchMode (settings : Settings.t) (newMode : TimerMode)
    (confirmed : bool) (s : state) : state :=
  if isActive s then
    if confirmed then
      set_startTimeRef None (setMode settings newMode (set_isActive false s))
    else s
  else setMode settings newMode s.

(** The timer together with what [handleTimerComplete] writes to. *)
Record world := mkWorld {
  timer : state;
  db : Firestore;
  hook : usePomodoroSessions.state
}.

(** [a % b === c]: the remainder is [NaN] for a zero divisor. *)
Definition remIs (a b c : Z) : bool :=
  if b =? 0 then false else Z.rem a b =? c.

Definition nextMode (settings : Settings.t) (s : state) : TimerMode :=
  match mode s with
  | work =>
      if remIs (completedPomodoros s) (Settings.longBreakInterval settings)
               (Settings.longBreakInterval settings - 1)
      then longBreak else shortBreak
  | _ => work
  end.

(** The session written by [handleTimerComplete] (lines 86-96). *)
Definition completedSession (taskId : string) (start endTime : Z)
    : PomodoroSession.data :=
  PomodoroSession.mkData taskId start endTime ((endTime - start) / 1000)
                         work_session.

(** [handleTimerComplete] (lines 74-117); [now env] is [new Date()]. *)
Definition handleTimerComplete (env : Env) (settings : Settings.t)
    (w : world) : world :=
  let s := timer w in
  let s1 := set_isActive false s in
  let '(db', hook', s2) :=
    match mode s, selectedTaskId s, startTimeRef s with
    | work, Some taskId, Some start =>
        if taskSelected (Some taskId) then
          let '(_, db', hook') :=
            usePomodoroSessions.addSession env
              (completedSession taskId start (now env)) (db w) (hook w) in
          (db', hook', set_completedPomodoros (completedPomodoros s + 1) s1)
        else (db w, hook w, s1)
    | _, _, _ => (db w, hook w, s1)
    end in
  let s3 := set_startTimeRef None s2 in
  mkWorld (setMode settings (nextMode settings s) s3) db' hook'.

(** One firing of the interval callback (lines 48-57): nothing is
    scheduled while the timer is not active. *)
Definition tick (env : Env) (settings : Settings.t) (w : world) : world :=
  let s := timer w in
  if isActive s then
    if timeLeft s <=? 1 then
      handleTimerComplete env settings
        (mkWorld (set_timeLeft 0 s) (db w) (hook w))
    else mkWorld (set_timeLeft (timeLeft s - 1) s) (db w) (hook w)
  else w.

Fixpoint ticks (n : nat) (env : Env) (settings : Settings.t) (w : world)
    : world :=
  match n with
  | O => w
  | S n' => ticks n' env settings (tick env settings w)
  end.

(** A full countdown: the user presses start at [startedAt], and the
    interval fires until the countdown completes, at [now env]. *)
Definition fullCountdown (startedAt : Z) (env : Env) (settings : Settings.t)
    (w : world) : world :=
  let s := fst (toggleTimer startedAt (timer w)) in
  ticks (Z.to_nat (Z.max 1 (timeLeft s))) env settings
        (mkWorld s (db w) (hook w)).
End PomodoroTimer.

(** ** [ProgressTracker], the chart effect ([ProgressTracker.tsx], 41-93)

    Dates.  A [Date] holds a UTC instant in milliseconds.  Its local
    accessors go through the time zone of the browser, which is given by
    two functions, as in the language definition: the offset in force at a
    UTC instant, and the offset taken for a local time value.  They may
    change with time (daylight saving), so local midnights need not be
    [DAY] milliseconds apart.  [d.toISOString().split('T')[0]] is the UTC
    calendar date of [d]; the model uses the number of that UTC day, which
    determines the string and is determined by it.  The label computed
    from the key by [toLocaleDateString] is display only: a bucket is kept
    as its key and its count. *)

Module ProgressTracker.
Inductive TimeRange := week | month.

Definition DAY : Z := 86400000.

Record TimeZone := mkZone {
  offsetAt : Z -> Z;
  offsetOfLocal : Z -> Z
}.

(** The local time value of a UTC instant, and back. *)
Definition LocalTime (zone : TimeZone) (t : Z) : Z := t + offsetAt zone t.
Definition UTC (zone : TimeZone) (tl : Z) : Z := tl - offsetOfLocal zone tl.

(** [new Date(now.getFullYear(), now.getMonth(), now.getDate())]: the
    start of the local day of [now]. *)
Definition localMidnight (zone : TimeZone) (now : Z) : Z :=
  UTC zone (LocalTime zone now / DAY * DAY).

(** [d.setDate(d.getDate() + k)]: the same local time of day, [k] local
    calendar days later. *)
Definition addDays (zone : TimeZone) (k d : Z) : Z :=
  UTC zone (LocalTime zone d + k * DAY).

Definition startDate (zone : TimeZone) (timeRange : TimeRange) (today : Z)
    : Z :=
  match timeRange with
  | week => addDays zone (-6) today
  | month => addDays zone (-29) today
  end.

Definition dateKey (d : Z) : Z := d / DAY.

(** A [Map<string, number>]: keys in insertion order. *)
Definition DateMap := list (Z * Z).

Fixpoint map_get (k : Z) (m : DateMap) : option Z :=
  match m with
  | [] => None
  | (k', v) :: rest => if k =? k' then Some v else map_get k rest
  end.

Fixpoint map_set (k v : Z) (m : DateMap) : DateMap :=
  match m with
  | [] => [(k, v)]
  | (k', v') :: rest =>
      if k =? k' then (k, v) :: rest else (k', v') :: map_set k v rest
  end.

(** The loop [for (d = startDate; d <= today; d.setDate(d.getDate() + 1))];
    [None] when the fuel runs out before the loop ends. *)
Fixpoint initDates (zone : TimeZone) (fuel : nat) (d today : Z)
    (m : DateMap) : option DateMap :=
  if d <=? today then
    match fuel with
    | O => None
    | S fuel' =>
        initDates zone fuel' (addDays zone 1 d) today
                  (map_set (dateKey d) 0 m)
    end
  else Some m.

(** The model follows the day loop for this many rounds. *)
Definition dayLoopFuel : nat := 64.

Definition inRange (start : Z) (session : PomodoroSession.t) : bool :=
  (start <=? PomodoroSession.startTime session)
  && bool_decide (PomodoroSession.type session = work_session).

(** [dateMap.set(dateKey, (dateMap.get(dateKey) || 0) + 1)]. *)
Definition countSession (m : DateMap) (session : PomodoroSession.t)
    : DateMap :=
  let key := dateKey (PomodoroSession.startTime session) in
  map_set key (usePomodoroSessions.orZero (default 0 (map_get key m)) + 1) m.

Record state := mk {
  chartData : list (Z * Z);
  totalPomodoros : Z;
  totalFocusTime : Z
}.

(** [useState([])], [useState(0)], [useState(0)]. *)
Definition initial : state := mk [] 0 0.

(** One run of the effect; [None] only if the day loop has not ended
    after [dayLoopFuel] rounds. *)
Definition chartEffect (loading : bool) (sessions : list PomodoroSession.t)
    (timeRange : TimeRange) (zone : TimeZone) (now : Z) (s : state)
    : option state :=
  if loading || bool_decide (sessions = []) then Some s
  else
    let today := localMidnight zone now in
    let start := startDate zone timeRange today in
    let filteredSessions := List.filter (inRange start) sessions in
    match initDates zone dayLoopFuel start today [] with
    | None => None
    | Some dateMap0 =>
        Some (mk (fold_left countSession filteredSessions dateMap0)
                 (Z.of_nat (length filteredSessions))
                 (fold_left (fun sum session =>
                               sum + PomodoroSession.duration session)
                            filteredSessions 0))
    end.

(** The per-task statistics of the same effect (lines 95-121), written to
    the [taskStats] cell under the same guard as the chart data. *)
Record TaskWithStats := mkStats {
  ts_id : option string;
  ts_title : string;
  ts_pomodorosCompleted : Z;
  ts_totalDuration : Z;
  ts_color : string
}.

Definition colors : list string :=
  ["#3B82F6"; "#8B5CF6"; "#EC4899"; "#F97316"; "#10B981";
   "#06B6D4"; "#EF4444"; "#F59E0B"; "#84CC16"; "#6366F1"].

(** A [Map<string, TaskWithStats>] keyed by [task.id!]: keys in insertion
    order, a key set again keeps its place. *)
Definition StatsMap := list (option string * TaskWithStats).

Fixpoint stats_set (k : option string) (v : TaskWithStats) (m : StatsMap)
    : StatsMap :=
  match m with
  | [] => [(k, v)]
  | (k', v') :: rest =>
      if decide (k = k') then (k, v) :: rest
      else (k', v') :: stats_set k v rest
  end.

(** [tasks.forEach((task, index) => taskMap.set(task.id!, ...))]. *)
Fixpoint initStats (index : nat) (tasks : list Task.t) (m : StatsMap)
    : StatsMap :=
  match tasks with
  | [] => m
  | task :: rest =>
      initStats (S index) rest
        (stats_set (Task.id task)
           (mkStats (Task.id task) (Task.title task) 0 0
                    (nth (index mod 10) colors ""))
           m)
  end.

(** The body of the loop over the sessions: a session of a task that is
    not in the map is skipped, otherwise the entry of the task is updated
    in place. *)
Fixpoint addToStats (session : PomodoroSession.t) (m : StatsMap)
    : StatsMap :=
  match m with
  | [] => []
  | (k, v) :: rest =>
      if decide (k = Some (PomodoroSession.taskId session))
      then (k, mkStats (ts_id v) (ts_title v)
                       (ts_pomodorosCompleted v + 1)
                       (ts_totalDuration v + PomodoroSession.duration session)
                       (ts_color v)) :: rest
      else (k, v) :: addToStats session rest
  end.

(** [.sort((a, b) => b.pomodorosCompleted - a.pomodorosCompleted)], a
    stable sort. *)
Fixpoint insertStat (a : TaskWithStats) (xs : list TaskWithStats)
    : list TaskWithStats :=
  match xs with
  | [] => [a]
  | b :: rest =>
      if ts_pomodorosCompleted b - ts_pomodorosCompleted a <=? 0
      then a :: b :: rest
      else b :: insertStat a rest
  end.

Definition sortStats (xs : list TaskWithStats) : list TaskWithStats :=
  foldr insertStat [] xs.

Definition taskStatsOf (tasks : list Task.t)
    (filteredSessions : list PomodoroSession.t) : list TaskWithStats :=
  let taskMap :=
    fold_left (fun m session => addToStats session m) filteredSessions
              (initStats 0 tasks []) in
  sortStats
    (List.filter (fun stats => 0 <? ts_pomodorosCompleted stats)
                 (map snd taskMap)).

Definition taskStatsEffect (loading : bool)
    (sessions : list PomodoroSession.t) (tasks : list Task.t)
    (timeRange : TimeRange) (zone : TimeZone) (now : Z)
    (taskStats : list TaskWithStats) : list TaskWithStats :=
  if loading || bool_decide (sessions = []) then taskStats
  else
    taskStatsOf tasks
      (List.filter
         (inRange (startDate zone timeRange (localMidnight zone now)))
         sessions).
End ProgressTracker.

(** ** [TaskHistory], the task lookup ([TaskHistory.tsx], lines 20-30, 216)

    [taskMap] is an object used as a dictionary from task id to title and
    description; a task without id lands under the key ["undefined"]. *)

Module TaskHistory.
Record entry := mkEntry {
  title : string;
  description : option string
}.

Definition keyOf (task : Task.t) : string :=
  default "undefined" (Task.id task).

Definition buildTaskMap (tasks : list Task.t) : gmap string entry :=
  fold_left
    (fun m task =>
       <[keyOf task := mkEntry (Task.title task) (Task.description task)]> m)
    tasks ∅.

(** [taskMap[session.taskId]?.title || 'Unknown Task']. *)
Definition displayTitle (taskMap : gmap string entry)
    (session : PomodoroSession.t) : string :=
  match taskMap !! PomodoroSession.taskId session with
  | Some e => if bool_decide (title e = "") then "Unknown Task" else title e
  | None => "Unknown Task"
  end.
End TaskHistory.

(** ** [TimerSettings] ([TimerSettings.tsx], lines 10-47)

    The dialog keeps the four numbers being edited in state cells of its
    own and writes them through its [useUserSettings] hook. *)

Module TimerSettings.
Record state := mk {
  workDuration : Z;
  shortBreakDuration : Z;
  longBreakDuration : Z;
  longBreakInterval : Z;
  error : option string;
  isSaving : bool
}.

Definition setError (e : string) (f : state) : state :=
  mk (workDuration f) (shortBreakDuration f) (longBreakDuration f)
     (longBreakInterval f) (Some e) (isSaving f).
Definition setIsSaving (b : bool) (f : state) : state :=
  mk (workDuration f) (shortBreakDuration f) (longBreakDuration f)
     (longBreakInterval f) (error f) b.

(** The cells start from the settings of the hook. *)
Definition initial (settings : Settings.t) : state :=
  mk (Settings.workDuration settings) (Settings.shortBreakDuration settings)
     (Settings.longBreakDuration settings)
     (Settings.longBreakInterval settings) None false.

(** [handleSave]; the boolean tells whether [onClose] was called.
    [updateSettings] catches its own failures, so the [catch] branch of
    [handleSave] is never entered. *)
Definition handleSave (env : Env) (f : state) (db : Firestore)
    (hook : useUserSettings.state)
    : state * bool * Firestore * useUserSettings.state :=
  if (workDuration f <? 1) || (shortBreakDuration f <? 1)
     || (longBreakDuration f <? 1) || (longBreakInterval f <? 1)
  then (setError "All durations must be at least 1 minute" f, false, db, hook)
  else if (120 <? workDuration f) || (60 <? shortBreakDuration f)
          || (120 <? longBreakDuration f)
  then (setError "Work and long break durations must be under 120 minutes, short break under 60 minutes" f,
        false, db, hook)
  else
    let '(_, db', hook') :=
      useUserSettings.updateSettings env
        (Settings.mk (workDuration f) (shortBreakDuration f)
                     (longBreakDuration f) (longBreakInterval f))
        db hook in
    (setIsSaving false f, true, db', hook').
End TimerSettings.

(** ** Sequences of operations and the words of the specification *)

(** A sequence of [addTask] calls, each with its own environment. *)
Fixpoint addMany (adds : list (Env * useTasks.taskData)) (db : Firestore)
    (s : useTasks.state) : Firestore * useTasks.state :=
  match adds with
  | [] => (db, s)
  | (env, d) :: rest =>
      let '(_, db', s') := useTasks.addTask env d db s in
      addMany rest db' s'
  end.

(** [m] is the maximum of the orders of [ts]. *)
Definition isMaxOrder (m : Z) (ts : list Task.t) : Prop :=
  (exists t, In t ts /\ Task.order t = m)
  /\ forall t, In t ts -> Task.order t <= m.

(** [n] countdowns in a row: countdown number [k] is started by the user
    at [fst (inp k)] and completes in the environment [snd (inp k)]. *)
Fixpoint countdowns (inp : nat -> Z * Env) (settings : Settings.t)
    (k n : nat) (w : PomodoroTimer.world) : PomodoroTimer.world :=
  match n with
  | O => w
  | S n' =>
      countdowns inp settings (S k) n'
        (PomodoroTimer.fullCountdown (fst (inp k)) (snd (inp k)) settings w)
  end.

(** The world after the [N]-th work countdown completes, [N >= 1]: every
    work countdown but the last is followed by its break countdown. *)
Definition afterWorkCompletion (inp : nat -> Z * Env) (settings : Settings.t)
    (N : nat) (w : PomodoroTimer.world) : PomodoroTimer.world :=
  countdowns inp settings 0 (2 * N - 1) w.

(** A paused timer in mode [m] with task [tid] selected and [c] completed
    work countdowns. *)
Definition ready (m : PomodoroTimer.TimerMode) (c : Z) (tid : string)
    (s : PomodoroTimer.state) : Prop :=
  PomodoroTimer.isActive s = false
  /\ PomodoroTimer.mode s = m
  /\ PomodoroTimer.completedPomodoros s = c
  /\ PomodoroTimer.selectedTaskId s = Some tid.

(** The test of a filter on one task. *)
Definition inFilter (filter : TaskManager.Filter) (task : Task.t) : bool :=
  match filter with
  | TaskManager.all => true
  | TaskManager.active => negb (Task.completed task)
  | TaskManager.completed => Task.completed task
  end.

(** The reorder of the specification: the slots of the full list that hold
    a task of the filtered subset are filled, in order, with the new
    arrangement of the subset; every other task keeps its slot. *)
Fixpoint spliceBack (inSubset : Task.t -> bool)
    (tasks arrangement : list Task.t) : list Task.t :=
  match tasks with
  | [] => []
  | task :: rest =>
      if inSubset task then
        match arrangement with
        | a :: arrangement' => a :: spliceBack inSubset rest arrangement'
        | [] => spliceBack inSubset rest []
        end
      else task :: spliceBack inSubset rest arrangement
  end.

Definition specifiedReorder (filter : TaskManager.Filter)
    (tasks arrangement : list Task.t) : list Task.t :=
  useTasks.reindex (spliceBack (inFilter filter) tasks arrangement).

(** Orders compared as the comparator of [handleDragEnd] compares them. *)
Definition orderLe (a b : Task.t) : Prop := Task.order a <= Task.order b.
Definition orderLt (a b : Task.t) : Prop := Task.order a < Task.order b.

(** A task as a fetch returns it, with the fields the reorder reads. *)
Definition sampleTask (id : string) (done : bool) (order : Z) : Task.t :=
  Task.mk (Some id) id None done 0 0 0 "u1" order.

(** [n] buckets of count 0 for the consecutive days from [k] on. *)
Fixpoint dayBuckets (k : Z) (n : nat) : list (Z * Z) :=
  match n with
  | O => []
  | S n' => (k, 0) :: dayBuckets (k + 1) n'
  end.

(** The window of the chart effect holds no work session: every session
    is a break session or starts before the first local midnight of the
    window. *)
Definition noWorkInWindow (timeRange : ProgressTracker.TimeRange)
    (zone : ProgressTracker.TimeZone) (now : Z)
    (sessions : list PomodoroSession.t) : bool :=
  forallb
    (fun session =>
       bool_decide (PomodoroSession.type session = break_session)
       || (PomodoroSession.startTime session
           <? ProgressTracker.startDate zone timeRange
                (ProgressTracker.localMidnight zone now)))
    sessions.

(** The number of calendar days of a window. *)
Definition windowLength (timeRange : ProgressTracker.TimeRange) : nat :=
  match timeRange with
  | ProgressTracker.week => 7%nat
  | ProgressTracker.month => 30%nat
  end.

(** Every task of [ts] has an id under which the collection [m] holds a
    document. *)
Definition allStored (ts : list Task.t) (m : gmap string Task.t) : bool :=
  forallb
    (fun task =>
       match Task.id task with
       | Some i => bool_decide (is_Some (m !! i))
       | None => false
       end)
    ts.

(** The sum of the counts of a bucket list. *)
Definition bucketSum (m : list (Z * Z)) : Z :=
  fold_right (fun b acc => b.2 + acc) 0 m.

(** A task list whose orders strictly increase and whose ids are
    distinct. *)
Definition orderedDistinct (ts : list Task.t) : Prop :=
  StronglySorted orderLt ts /\ NoDup (map Task.id ts).

(** The sum of the session counts of a list of statistics rows. *)
Definition statsSum (rows : list ProgressTracker.TaskWithStats) : Z :=
  fold_right (fun r acc => ProgressTracker.ts_pomodorosCompleted r + acc) 0
             rows.

(** The session refers to a task of the list. *)
Definition ofListedTask (tasks : list Task.t) (session : PomodoroSession.t)
    : bool :=
  bool_decide (Some (PomodoroSession.taskId session) ∈ map Task.id tasks).

(** The entries of a statistics map have distinct keys, carry their key
    as id and a count that is not negative. *)
Definition statsInvariant (m : ProgressTracker.StatsMap) : Prop :=
  NoDup (map fst m)
  /\ Forall (fun kv => ProgressTracker.ts_id kv.2 = kv.1
                       /\ 0 <= ProgressTracker.ts_pomodorosCompleted kv.2) m.

(** No stored task document has an [id] field of its own (the hook
    never writes one). *)
Definition noIdField (col : gmap string Task.t) : Prop :=
  forall k d, col !! k = Some d -> Task.id d = None.

(** The UTC offset is [o] at every local midnight of the window of [now]
    and at the midnight that ends it: no change of offset (daylight
    saving) falls between them. *)
Definition steadyOffset (zone : ProgressTracker.TimeZone)
    (timeRange : ProgressTracker.TimeRange) (now o : Z) : Prop :=
  let midnight :=
    ProgressTracker.LocalTime zone now / ProgressTracker.DAY
    * ProgressTracker.DAY in
  forall j : Z,
    - Z.of_nat (windowLength timeRange) < j <= 1 ->
    ProgressTracker.offsetOfLocal zone (midnight + j * ProgressTracker.DAY) = o
    /\ ProgressTracker.offsetAt zone (midnight + j * ProgressTracker.DAY - o)
       = o.


(** A zone with the same offset all year. *)
Definition fixedZone (o : Z) : ProgressTracker.TimeZone :=
  ProgressTracker.mkZone (fun _ => o) (fun _ => o).

(** Europe/London around the start of summer time 2024: UTC until
    31 March 01:00 UTC, one hour ahead from then on.  A local time in the
    skipped hour (01:00 to 02:00) is read with the offset before the
    change. *)
Definition londonSpring2024 : ProgressTracker.TimeZone :=
  ProgressTracker.mkZone
    (fun t => if t <? 19813 * 86400000 + 3600000 then 0 else 3600000)
    (fun tl => if tl <? 19813 * 86400000 + 7200000 then 0 else 3600000).


(** [new] is [old] after an update with the fields [p] at time [now]:
    each field that [p] mentions has the value [p] gives, [updatedAt] is
    [now], and every other field is the one of [old]. *)
Definition updatedFrom (now : Z) (p : Task.partial) (old new : Task.t)
    : Prop :=
  Task.id new
  = match Task.p_id p with Some x => x | None => Task.id old end
  /\ Task.title new
     = match Task.p_title p with Some x => x | None => Task.title old end
  /\ Task.description new
     = match Task.p_description p with
       | Some x => x
       | None => Task.description old
       end
  /\ Task.completed new
     = match Task.p_completed p with
       | Some x => x
       | None => Task.completed old
       end
  /\ Task.createdAt new
     = match Task.p_createdAt p with
       | Some x => x
       | None => Task.createdAt old
       end
  /\ Task.updatedAt new = now
  /\ Task.pomodorosCompleted new
     = match Task.p_pomodorosCompleted p with
       | Some x => x
       | None => Task.pomodorosCompleted old
       end
  /\ Task.userId new
     = match Task.p_userId p with Some x => x | None => Task.userId old end
  /\ Task.order new
     = match Task.p_order p with Some x => x | None => Task.order old end.

(** * Task list: [addTask] *)

Section AddTask.
Import useTasks.

Lemma Math_max_lower (xs : list Z) (x : Z) : x <= Math_max x xs.
Proof.
  unfold Math_max. revert x.
  induction xs as [|y ys IH]; intros x; simpl; [lia|].
  specialize (IH (Z.max x y)). lia.
Qed.

Lemma Math_max_upper (xs : list Z) (x y : Z) :
  In y xs -> y <= Math_max x xs.
Proof.
  unfold Math_max. revert x.
  induction xs as [|z zs IH]; intros x Hin; simpl in *; [tauto|].
  destruct Hin as [->|Hin]; [|by apply IH].
  pose proof (Math_max_lower zs (Z.max x y)) as Hl.
  unfold Math_max in Hl. lia.
Qed.

Lemma Math_max_attained (xs : list Z) (x : Z) :
  Math_max x xs = x \/ In (Math_max x xs) xs.
Proof.
  unfold Math_max. revert x.
  induction xs as [|z zs IH]; intros x; simpl; [by left|].
  destruct (IH (Z.max x z)) as [Heq|Hin]; [|by right; right].
  rewrite Heq.
  destruct (Z.max_spec x z) as [[_ ->]|[_ ->]]; [right; by left|by left].
Qed.

Lemma highestOrder_upper (ts : list Task.t) (t : Task.t) :
  In t ts -> Task.order t <= highestOrder ts.
Proof.
  unfold highestOrder. destruct ts as [|t0 ts]; simpl; [tauto|].
  intros [->|Hin]; [apply Math_max_lower|].
  apply Math_max_upper. by apply in_map.
Qed.

Lemma highestOrder_attained (ts : list Task.t) :
  ts <> [] -> exists t, In t ts /\ Task.order t = highestOrder ts.
Proof.
  unfold highestOrder. destruct ts as [|t0 ts]; [done|]. intros _. simpl.
  destruct (Math_max_attained (map Task.order ts) (Task.order t0)) as [Heq|Hin].
  - exists t0. split; [by left|done].
  - apply in_map_iff in Hin as (t & Ht & Hin).
    exists t. split; [by right|done].
Qed.

Lemma highestOrder_isMax (ts : list Task.t) (m : Z) :
  isMaxOrder m ts -> highestOrder ts = m.
Proof.
  intros [(t & Hin & Ht) Hub].
  assert (ts <> []) as Hne by (intros ->; inversion Hin).
  destruct (highestOrder_attained ts Hne) as (t' & Hin' & Ht').
  pose proof (highestOrder_upper ts t Hin).
  pose proof (Hub t' Hin'). lia.
Qed.

(** C9.  After any sequence of [addTask] calls, a further [addTask] by a
    signed-in user appends a task whose order is 0 when no task exists,
    and otherwise the maximum existing order plus one; its order is
    strictly greater than the order of every task that existed before,
    whether it was there from the start or added by the sequence. *)
Theorem addTask_order_above_existing
    (adds : list (Env * taskData)) (env : Env) (u : User) (d : taskData)
    (db0 : Firestore) (s0 : state)
    (Hu : currentUser env = Some u) :
  let '(db, s) := addMany adds db0 s0 in
  exists t' db' s',
    addTask env d db s = (Some t', db', s')
    /\ tasks s' = tasks s ++ [t']
    /\ col_tasks db' !! autoId env = Some (Task.set_id None t')
    /\ (tasks s = [] -> Task.order t' = 0)
    /\ (forall m, isMaxOrder m (tasks s) -> Task.order t' = m + 1)
    /\ (forall t, In t (tasks s) -> Task.order t < Task.order t').
Proof.
  destruct (addMany adds db0 s0) as [db s].
  unfold addTask. rewrite Hu.
  eexists _, _, _. split; [reflexivity|].
  split; [reflexivity|]. split.
  { simpl. unfold addDoc. by rewrite lookup_insert_eq. }
  split; [|split].
  - intros Hnil. simpl. by rewrite Hnil.
  - intros m Hm. simpl. by rewrite (highestOrder_isMax _ _ Hm).
  - intros t Hin. simpl. pose proof (highestOrder_upper _ _ Hin). lia.
Qed.

Lemma addTask_order_above_existing_witness :
  let u := mkUser "u1" in
  let adds := [(mkEnv (Some u) 3 "t1", mkData "first" None)] in
  let env := mkEnv (Some u) 7 "t2" in
  let d := mkData "second" None in
  currentUser env = Some u
  /\ (let '(db, s) := addMany adds emptyStore (mk [] false None) in
      exists t' db' s',
        addTask env d db s = (Some t', db', s')
        /\ tasks s' = tasks s ++ [t']
        /\ col_tasks db' !! autoId env = Some (Task.set_id None t')
        /\ (tasks s = [] -> Task.order t' = 0)
        /\ (forall m, isMaxOrder m (tasks s) -> Task.order t' = m + 1)
        /\ (forall t, In t (tasks s) -> Task.order t < Task.order t')).
Proof.
  intros u adds env d. split; [reflexivity|].
  exact (addTask_order_above_existing adds env u d emptyStore
           (mk [] false None) eq_refl).
Defined.
End AddTask.

(** * Signed-out user *)

(** C10.  With no signed-in user, each mutating operation of the data
    hooks returns [null] (for [addTask] and [addSession]) or [false], and
    leaves the store and the state of its hook as they were. *)
Theorem signed_out_operations_do_nothing (env : Env) (db : Firestore)
    (Hnone : currentUser env = None) :
  (forall d s, useTasks.addTask env d db s = (None, db, s))
  /\ (forall id p s, useTasks.updateTask env id p db s = (false, db, s))
  /\ (forall id s, useTasks.deleteTask env id db s = (false, db, s))
  /\ (forall ts s, useTasks.reorderTasks env ts db s = (false, db, s))
  /\ (forall d s, usePomodoroSessions.addSession env d db s = (None, db, s))
  /\ (forall x s, useUserSettings.updateSettings env x db s = (false, db, s)).
Proof.
  unfold useTasks.addTask, useTasks.updateTask, useTasks.deleteTask,
    useTasks.reorderTasks, usePomodoroSessions.addSession,
    useUserSettings.updateSettings.
  rewrite Hnone. repeat split.
Qed.

Lemma signed_out_operations_do_nothing_witness :
  let env := mkEnv None 0 "x" in
  let db := emptyStore in
  currentUser env = None
  /\ ((forall d s, useTasks.addTask env d db s = (None, db, s))
      /\ (forall id p s, useTasks.updateTask env id p db s = (false, db, s))
      /\ (forall id s, useTasks.deleteTask env id db s = (false, db, s))
      /\ (forall ts s, useTasks.reorderTasks env ts db s = (false, db, s))
      /\ (forall d s,
            usePomodoroSessions.addSession env d db s = (None, db, s))
      /\ (forall x s,
            useUserSettings.updateSettings env x db s = (false, db, s))).
Proof.
  intros env db. split; [reflexivity|].
  exact (signed_out_operations_do_nothing env db eq_refl).
Defined.

(** * Session recorder: [addSession] *)

Section AddSession.
Import usePomodoroSessions.

Lemma orZero_id (x : Z) : orZero x = x.
Proof. unfold orZero. destruct (Z.eqb_spec x 0); congruence. Qed.

Lemma bumpCounter_found (now : Z) (k : string) (m : gmap string Task.t)
    (stored : Task.t) :
  m !! k = Some stored ->
  bumpCounter now k m = <[k := Task.spread stored (counterFields stored now)]> m.
Proof. intros H. unfold bumpCounter, updateDoc. by rewrite !H. Qed.

Lemma bumpCounter_missing (now : Z) (k : string) (m : gmap string Task.t) :
  m !! k = None -> bumpCounter now k m = m.
Proof. intros H. unfold bumpCounter. by rewrite H. Qed.

(** C8.  [addSession] by a signed-in user always persists the session.
    For a work session whose task is in the store, the stored task's
    [pomodorosCompleted] becomes the value read from the store plus one
    (the hook's cached task list is not an input of the operation), and no
    other task changes; when the task is not in the store the task
    collection is unchanged and the session is persisted all the same; a
    break session leaves the task collection unchanged. *)
Theorem addSession_counter (env : Env) (u : User)
    (d : PomodoroSession.data) (db : Firestore) (s : state)
    (Hu : currentUser env = Some u) :
  exists r db' s',
    addSession env d db s = (Some r, db', s')
    /\ col_pomodoroSessions db' !! autoId env
       = Some (PomodoroSession.ofData d (uid u))
    /\ sessions s' = r :: sessions s
    /\ (PomodoroSession.d_type d = work_session ->
        forall stored,
          col_tasks db !! PomodoroSession.d_taskId d = Some stored ->
          (exists t', col_tasks db' !! PomodoroSession.d_taskId d = Some t'
                      /\ Task.pomodorosCompleted t'
                         = Task.pomodorosCompleted stored + 1)
          /\ forall k, k <> PomodoroSession.d_taskId d ->
                       col_tasks db' !! k = col_tasks db !! k)
    /\ (PomodoroSession.d_type d = work_session ->
        col_tasks db !! PomodoroSession.d_taskId d = None ->
        col_tasks db' = col_tasks db)
    /\ (PomodoroSession.d_type d = break_session ->
        col_tasks db' = col_tasks db).
Proof.
  unfold addSession. rewrite Hu.
  eexists _, _, _. split; [reflexivity|].
  split.
  { destruct (PomodoroSession.d_type d); simpl;
      unfold addDoc; by rewrite lookup_insert_eq. }
  split; [reflexivity|].
  split; [|split].
  - intros Hw stored Hst. rewrite Hw. simpl.
    rewrite (bumpCounter_found _ _ _ _ Hst). split.
    + eexists. split; [apply lookup_insert_eq|].
      simpl. by rewrite orZero_id.
    + intros k Hk. by rewrite lookup_insert_ne.
  - intros Hw Hmiss. rewrite Hw. simpl. by apply bumpCounter_missing.
  - intros Hb. by rewrite Hb.
Qed.

Lemma addSession_counter_witness :
  let u := mkUser "u1" in
  let env := mkEnv (Some u) 9000 "s1" in
  let d := PomodoroSession.mkData "t1" 1000 9000 8 work_session in
  let db := mkFirestore {[ "t1" := sampleTask "t1" false 0 ]} ∅ ∅ in
  let s := mk [] false None in
  currentUser env = Some u
  /\ exists r db' s',
       addSession env d db s = (Some r, db', s')
       /\ col_pomodoroSessions db' !! autoId env
          = Some (PomodoroSession.ofData d (uid u))
       /\ sessions s' = r :: sessions s
       /\ (PomodoroSession.d_type d = work_session ->
           forall stored,
             col_tasks db !! PomodoroSession.d_taskId d = Some stored ->
             (exists t', col_tasks db' !! PomodoroSession.d_taskId d = Some t'
                         /\ Task.pomodorosCompleted t'
                            = Task.pomodorosCompleted stored + 1)
             /\ forall k, k <> PomodoroSession.d_taskId d ->
                          col_tasks db' !! k = col_tasks db !! k)
       /\ (PomodoroSession.d_type d = work_session ->
           col_tasks db !! PomodoroSession.d_taskId d = None ->
           col_tasks db' = col_tasks db)
       /\ (PomodoroSession.d_type d = break_session ->
           col_tasks db' = col_tasks db).
Proof.
  intros u env d db s. split; [reflexivity|].
  exact (addSession_counter env u d db s eq_refl).
Defined.
End AddSession.

(** * Timer *)

Section Timer.
Import PomodoroTimer.

(** C6.  In work mode with no task selected, pressing start on a timer
    that is not running is refused with an alert to the user: the timer
    state is returned as it was, so [isActive] stays false, the countdown
    is unchanged and no start time is recorded. *)
Theorem start_without_task_is_refused (now : Z) (s : state)
    (Hpaused : isActive s = false)
    (Hwork : mode s = work)
    (Hnotask : taskSelected (selectedTaskId s) = false) :
  let '(s', alert) := toggleTimer now s in
  alert = Some "Please select a task before starting a work session"
  /\ s' = s
  /\ isActive s' = false
  /\ timeLeft s' = timeLeft s
  /\ startTimeRef s' = startTimeRef s.
Proof.
  unfold toggleTimer. rewrite Hpaused, Hwork, Hnotask. simpl.
  by rewrite Hpaused.
Qed.

Lemma start_without_task_is_refused_witness :
  let s := initial Settings.defaults in
  isActive s = false
  /\ mode s = work
  /\ taskSelected (selectedTaskId s) = false
  /\ (let '(s', alert) := toggleTimer 1000 s in
      alert = Some "Please select a task before starting a work session"
      /\ s' = s
      /\ isActive s' = false
      /\ timeLeft s' = timeLeft s
      /\ startTimeRef s' = startTimeRef s).
Proof.
  intros s. do 3 (split; [reflexivity|]).
  exact (start_without_task_is_refused 1000 s eq_refl eq_refl eq_refl).
Defined.

(** C7.  When a work countdown completes for a signed-in user with a task
    selected, the session written to the store spans the recorded start
    and the completion time, and its [duration] is the floor of that span
    in seconds; a span of 90.7 seconds gives 90. *)
Theorem recorded_duration_is_floor_of_span (env : Env) (u : User)
    (settings : Settings.t) (w : world) (taskId : string) (start : Z)
    (Hu : currentUser env = Some u)
    (Hwork : mode (timer w) = work)
    (Htask : selectedTaskId (timer w) = Some taskId)
    (Hne : taskId <> "")
    (Hstart : startTimeRef (timer w) = Some start) :
  exists session,
    col_pomodoroSessions (db (handleTimerComplete env settings w))
      !! autoId env = Some session
    /\ PomodoroSession.startTime session = start
    /\ PomodoroSession.endTime session = now env
    /\ PomodoroSession.type session = work_session
    /\ 1000 * PomodoroSession.duration session
       <= PomodoroSession.endTime session - PomodoroSession.startTime session
       < 1000 * PomodoroSession.duration session + 1000
    /\ (now env = start + 90700 -> PomodoroSession.duration session = 90).
Proof.
  unfold handleTimerComplete. rewrite Hwork, Htask, Hstart.
  unfold taskSelected. rewrite bool_decide_eq_false_2 by done. simpl.
  unfold usePomodoroSessions.addSession. rewrite Hu. simpl.
  eexists. split.
  { unfold addDoc. rewrite lookup_insert_eq. reflexivity. }
  simpl. repeat split; Z.div_mod_to_equations; lia.
Qed.

Lemma recorded_duration_is_floor_of_span_witness :
  let u := mkUser "u1" in
  let env := mkEnv (Some u) 91700 "s1" in
  let settings := Settings.defaults in
  let w :=
    mkWorld (mk 0 true work (Some "t1") 0 (Some 1000)) emptyStore
            (usePomodoroSessions.mk [] false None) in
  currentUser env = Some u
  /\ mode (timer w) = work
  /\ selectedTaskId (timer w) = Some "t1"
  /\ "t1" <> ""
  /\ startTimeRef (timer w) = Some 1000
  /\ exists session,
       col_pomodoroSessions (db (handleTimerComplete env settings w))
         !! autoId env = Some session
       /\ PomodoroSession.startTime session = 1000
       /\ PomodoroSession.endTime session = now env
       /\ PomodoroSession.type session = work_session
       /\ 1000 * PomodoroSession.duration session
          <= PomodoroSession.endTime session
             - PomodoroSession.startTime session
          < 1000 * PomodoroSession.duration session + 1000
       /\ (now env = 1000 + 90700 -> PomodoroSession.duration session = 90).
Proof.
  intros u env settings w.
  assert ("t1" <> "") as Hne by discriminate.
  do 5 (split; [first [reflexivity | exact Hne]|]).
  exact (recorded_duration_is_floor_of_span env u settings w "t1" 1000
           eq_refl eq_refl eq_refl Hne eq_refl).
Defined.

(** ** Countdowns *)

Lemma set_timeLeft_twice (x y : Z) (s : state) :
  set_timeLeft x (set_timeLeft y s) = set_timeLeft x s.
Proof. reflexivity. Qed.

(** While the timer runs, one firing per remaining second (and at least
    one) ends in [handleTimerComplete]. *)
Lemma ticks_complete (env : Env) (settings : Settings.t) (n : nat) :
  forall s db0 hook0,
    isActive s = true ->
    Z.to_nat (Z.max 1 (timeLeft s)) = n ->
    ticks n env settings (mkWorld s db0 hook0)
    = handleTimerComplete env settings (mkWorld (set_timeLeft 0 s) db0 hook0).
Proof.
  induction n as [|n IH]; intros s db0 hook0 Hact Hn; [lia|].
  simpl. unfold tick at 1. simpl. rewrite Hact.
  destruct (Z.leb_spec (timeLeft s) 1) as [Hle|Hgt].
  - assert (n = 0%nat) as -> by lia. reflexivity.
  - rewrite IH; [by rewrite set_timeLeft_twice|done|simpl; lia].
Qed.

Lemma fullCountdown_eq (startedAt : Z) (env : Env) (settings : Settings.t)
    (w : world) (tid : string) :
  isActive (timer w) = false ->
  selectedTaskId (timer w) = Some tid -> tid <> "" ->
  exists start,
    fullCountdown startedAt env settings w
    = handleTimerComplete env settings
        (mkWorld (set_timeLeft 0
                    (set_startTimeRef (Some start) (set_isActive true (timer w))))
                 (db w) (hook w)).
Proof.
  intros Hact Hsel Hne. unfold fullCountdown, toggleTimer.
  rewrite Hact, Hsel. unfold taskSelected.
  rewrite (bool_decide_eq_false_2 _ Hne). rewrite andb_false_r. simpl.
  unfold setIsActive. rewrite Hact.
  destruct (decide (true = false)) as [?|_]; [done|].
  unfold activeEffect. simpl.
  destruct (startTimeRef (timer w)) as [t0|] eqn:Hst.
  - exists t0. rewrite ticks_complete; [|done..].
    do 3 f_equal. destruct (timer w); simpl in *; by subst.
  - exists startedAt. by rewrite ticks_complete.
Qed.

Lemma fullCountdown_work (startedAt : Z) (env : Env) (settings : Settings.t)
    (w : world) (c : Z) (tid : string) :
  tid <> "" -> ready work c tid (timer w) ->
  ready (if remIs c (Settings.longBreakInterval settings)
                  (Settings.longBreakInterval settings - 1)
         then longBreak else shortBreak)
        (c + 1) tid (timer (fullCountdown startedAt env settings w)).
Proof.
  intros Hne (Hact & Hmode & Hc & Hsel).
  destruct (fullCountdown_eq startedAt env settings w tid Hact Hsel Hne)
    as [start ->].
  unfold handleTimerComplete. simpl. rewrite Hmode, Hsel.
  unfold taskSelected. rewrite (bool_decide_eq_false_2 _ Hne). simpl.
  destruct (usePomodoroSessions.addSession _ _ _ _) as [[r db'] hook'].
  unfold nextMode, setMode. simpl. rewrite Hmode, Hc.
  destruct (remIs _ _ _); simpl; by repeat split.
Qed.

Lemma fullCountdown_break (startedAt : Z) (env : Env) (settings : Settings.t)
    (w : world) (m : TimerMode) (c : Z) (tid : string) :
  tid <> "" -> m <> work -> ready m c tid (timer w) ->
  ready work c tid (timer (fullCountdown startedAt env settings w)).
Proof.
  intros Hne Hm (Hact & Hmode & Hc & Hsel).
  destruct (fullCountdown_eq startedAt env settings w tid Hact Hsel Hne)
    as [start ->].
  unfold handleTimerComplete, nextMode, setMode. simpl. rewrite Hmode.
  destruct m; [done|..]; simpl; rewrite Hmode; simpl; by repeat split.
Qed.

Lemma countdowns_app (inp : nat -> Z * Env) (settings : Settings.t)
    (a b : nat) :
  forall k w,
    countdowns inp settings k (a + b) w
    = countdowns inp settings (k + a) b (countdowns inp settings k a w).
Proof.
  induction a as [|a IH]; intros k w; simpl.
  - by rewrite Nat.add_0_r.
  - rewrite IH. by replace (S k + a)%nat with (k + S a)%nat by lia.
Qed.

(** A work countdown and the break countdown after it: back in work mode
    with one more completed work countdown. *)
Lemma countdowns_pairs (inp : nat -> Z * Env) (settings : Settings.t)
    (tid : string) (n : nat) :
  tid <> "" ->
  forall k c w,
    ready work c tid (timer w) ->
    ready work (c + Z.of_nat n) tid
          (timer (countdowns inp settings k (2 * n) w)).
Proof.
  intros Hne. induction n as [|n IH]; intros k c w Hr.
  - simpl. by rewrite Z.add_0_r.
  - replace (2 * S n)%nat with (S (S (2 * n))) by lia. simpl countdowns.
    replace (c + Z.of_nat (S n)) with ((c + 1) + Z.of_nat n) by lia.
    apply IH.
    eapply fullCountdown_break; [done| |by apply fullCountdown_work].
    by destruct (remIs _ _ _).
Qed.

Lemma remIs_last_of_interval (n K : Z) :
  0 <= n -> 1 <= K ->
  remIs n K (K - 1) = ((n + 1) mod K =? 0).
Proof.
  intros Hn HK. unfold remIs.
  destruct (Z.eqb_spec K 0) as [?|_]; [lia|].
  rewrite Z.rem_mod_nonneg by lia.
  destruct (Z.eqb_spec (n mod K) (K - 1)) as [He|He]; symmetry.
  - apply Z.eqb_eq.
    replace (n + 1) with ((n / K + 1) * K); [apply Z.mod_mul; lia|].
    pose proof (Z.div_mod n K). lia.
  - apply Z.eqb_neq. intros He'. apply He. symmetry.
    apply (Z.mod_unique n K ((n + 1) / K - 1) (K - 1)); [lia|].
    pose proof (Z.div_mod (n + 1) K). lia.
Qed.

(** C5.  Starting from a paused timer in work mode with a task selected
    and no completed work countdown, and with a long-break interval
    [K >= 1], the mode entered when the [N]-th work countdown completes
    ([N >= 1]) is [longBreak] when [N] is a multiple of [K] and
    [shortBreak] otherwise; and the completion of a countdown in either
    break mode enters [work]. *)
Theorem long_break_after_every_Kth_work (inp : nat -> Z * Env)
    (settings : Settings.t) (N : nat) (tid : string) (w : world)
    (HN : (1 <= N)%nat)
    (HK : 1 <= Settings.longBreakInterval settings)
    (Htid : tid <> "")
    (Hstart : ready work 0 tid (timer w)) :
  mode (timer (afterWorkCompletion inp settings N w))
  = (if Z.of_nat N mod Settings.longBreakInterval settings =? 0
     then longBreak else shortBreak)
  /\ forall env w',
       mode (timer w') <> work ->
       mode (timer (handleTimerComplete env settings w')) = work.
Proof.
  split.
  - unfold afterWorkCompletion.
    replace (2 * N - 1)%nat with (2 * (N - 1) + 1)%nat by lia.
    rewrite countdowns_app.
    change (countdowns inp settings ?k 1 ?x)
      with (fullCountdown (fst (inp k)) (snd (inp k)) settings x).
    pose proof (countdowns_pairs inp settings tid (N - 1) Htid 0%nat 0 w Hstart)
      as Hr.
    destruct (fullCountdown_work
                (fst (inp (0 + 2 * (N - 1))%nat))
                (snd (inp (0 + 2 * (N - 1))%nat))
                settings _ _ _ Htid Hr) as (_ & Hm & _).
    rewrite Hm.
    rewrite remIs_last_of_interval by lia.
    by replace (0 + Z.of_nat (N - 1) + 1) with (Z.of_nat N) by lia.
  - intros env w' Hm. unfold handleTimerComplete, nextMode, setMode.
    destruct (mode (timer w')) eqn:Hmode; [done|..]; simpl; by rewrite Hmode.
Qed.

Lemma long_break_after_every_Kth_work_witness :
  let settings := Settings.defaults in
  let inp := fun k : nat =>
    (Z.of_nat k * 2000000,
     mkEnv (Some (mkUser "u1")) (Z.of_nat k * 2000000 + 1500000) "s1") in
  let w :=
    mkWorld (selectTask "t1" (initial settings)) emptyStore
            (usePomodoroSessions.mk [] false None) in
  (1 <= 4)%nat
  /\ 1 <= Settings.longBreakInterval settings
  /\ "t1" <> ""
  /\ ready work 0 "t1" (timer w)
  /\ (mode (timer (afterWorkCompletion inp settings 4 w))
      = (if Z.of_nat 4 mod Settings.longBreakInterval settings =? 0
         then longBreak else shortBreak)
      /\ forall env w',
           mode (timer w') <> work ->
           mode (timer (handleTimerComplete env settings w')) = work).
Proof.
  intros settings inp w.
  assert ((1 <= 4)%nat) as HN by (repeat constructor).
  assert (1 <= Settings.longBreakInterval settings) as HK by discriminate.
  assert ("t1" <> "") as Hne by discriminate.
  assert (ready work 0 "t1" (timer w)) as Hr by (repeat split).
  do 4 (split; [assumption|]).
  exact (long_break_after_every_Kth_work inp settings 4 "t1" w HN HK Hne Hr).
Defined.
End Timer.

(** * Task list: drag and drop *)

Section DragAndDrop.
Import TaskManager.

Lemma insertByOrder_perm (a : Task.t) (xs : list Task.t) :
  insertByOrder a xs ≡ₚ a :: xs.
Proof.
  induction xs as [|b rest IH]; simpl; [done|].
  destruct (_ <=? 0); [done|].
  rewrite IH. apply perm_swap.
Qed.

Lemma sortByOrder_perm (xs : list Task.t) : sortByOrder xs ≡ₚ xs.
Proof.
  induction xs as [|a rest IH]; simpl; [done|].
  unfold sortByOrder in IH. by rewrite insertByOrder_perm, IH.
Qed.

Lemma insertByOrder_sorted (a : Task.t) (xs : list Task.t) :
  StronglySorted orderLe xs -> StronglySorted orderLe (insertByOrder a xs).
Proof.
  induction 1 as [|b rest Hs IH Hall]; simpl.
  - repeat constructor.
  - destruct (Z.leb_spec (Task.order a - Task.order b) 0) as [Hle|Hgt].
    + constructor; [by constructor|].
      constructor; [unfold orderLe; lia|].
      eapply Forall_impl; [exact Hall|]. unfold orderLe. intros c Hc. lia.
    + constructor; [done|].
      rewrite insertByOrder_perm.
      constructor; [unfold orderLe; lia|done].
Qed.

Lemma sortByOrder_sorted (xs : list Task.t) :
  StronglySorted orderLe (sortByOrder xs).
Proof.
  induction xs as [|a rest IH]; simpl; [constructor|].
  by apply insertByOrder_sorted.
Qed.

Lemma orderLt_orderLe (xs : list Task.t) :
  StronglySorted orderLt xs -> StronglySorted orderLe xs.
Proof.
  induction 1 as [|a rest Hs IH Hall]; constructor; [done|].
  eapply Forall_impl; [exact Hall|]. unfold orderLt, orderLe. intros; lia.
Qed.

Lemma orderLt_same_order (xs : list Task.t) (a b : Task.t) :
  StronglySorted orderLt xs -> In a xs -> In b xs ->
  Task.order a = Task.order b -> a = b.
Proof.
  induction 1 as [|c rest Hs IH Hall]; simpl; [tauto|].
  rewrite Forall_forall in Hall. unfold orderLt in Hall.
  intros [->|Ha] [->|Hb] Heq; auto.
  - apply list_elem_of_In, Hall in Hb. lia.
  - apply list_elem_of_In, Hall in Ha. lia.
Qed.

(** Sorting a rearrangement of a list whose orders strictly increase gives
    the list back. *)
Lemma sortByOrder_restores (tasks xs : list Task.t) :
  StronglySorted orderLt tasks -> xs ≡ₚ tasks -> sortByOrder xs = tasks.
Proof.
  intros Hs Hp.
  apply (StronglySorted_unique_strong orderLe).
  - intros x1 x2 H1 H2 Hle1 Hle2.
    apply (orderLt_same_order tasks); [done| |by apply list_elem_of_In|].
    + apply list_elem_of_In. by rewrite <- Hp, <- (sortByOrder_perm xs).
    + unfold orderLe in *. lia.
  - apply sortByOrder_sorted.
  - by apply orderLt_orderLe.
  - by rewrite sortByOrder_perm.
Qed.

Lemma spliceOut_perm {A} (i : nat) (xs rest : list A) (x : A) :
  spliceOut i xs = Some (x, rest) -> x :: rest ≡ₚ xs.
Proof.
  unfold spliceOut. destruct (xs !! i) as [y|] eqn:Hy; [|done].
  intros [= -> <-]. rewrite Permutation_middle.
  by rewrite (take_drop_middle xs i x Hy).
Qed.

Lemma spliceIn_perm {A} (i : nat) (x : A) (xs : list A) :
  spliceIn i x xs ≡ₚ x :: xs.
Proof.
  unfold spliceIn. rewrite <- Permutation_middle. by rewrite take_drop.
Qed.

Lemma getFilteredTasks_filter (filter : Filter) (tasks : list Task.t) :
  getFilteredTasks filter tasks = List.filter (inFilter filter) tasks.
Proof.
  destruct filter; simpl; [|done..].
  induction tasks as [|t rest IH]; simpl; [done|]. by rewrite <- IH.
Qed.

Lemma map_In_inj {A B} (f : A -> B) (l : list A) (a b : A) :
  NoDup (map f l) -> In a l -> In b l -> f a = f b -> a = b.
Proof.
  induction l as [|c rest IH]; simpl; [tauto|].
  intros Hnd. apply NoDup_cons in Hnd as [Hnotin Hnd].
  rewrite list_elem_of_In in Hnotin.
  intros [->|Ha] [->|Hb] Heq; auto.
  - exfalso. apply Hnotin. rewrite Heq. by apply in_map.
  - exfalso. apply Hnotin. rewrite <- Heq. by apply in_map.
Qed.

(** With distinct ids, the tasks found by id outside the filtered list are
    the tasks that fail the filter. *)
Lemma nonFilteredTasks_complement (P : Task.t -> bool) (tasks : list Task.t) :
  NoDup (map Task.id tasks) ->
  nonFilteredTasks (List.filter P tasks) tasks
  = List.filter (fun t => negb (P t)) tasks.
Proof.
  intros Hnd. unfold nonFilteredTasks. apply filter_ext_in.
  intros t Hin. f_equal.
  destruct (P t) eqn:HP.
  - apply existsb_exists. exists t. split.
    + apply filter_In. by split.
    + by apply bool_decide_eq_true_2.
  - apply not_true_is_false. intros Hex.
    apply existsb_exists in Hex as (f & Hf & Heq).
    apply filter_In in Hf as [Hf HPf].
    apply bool_decide_eq_true_1 in Heq.
    assert (f = t) as -> by (by apply (map_In_inj Task.id tasks)).
    congruence.
Qed.

Lemma filter_complement_perm {A} (P : A -> bool) (l : list A) :
  List.filter P l ++ List.filter (fun x => negb (P x)) l ≡ₚ l.
Proof.
  induction l as [|a rest IH]; simpl; [done|].
  destruct (P a); simpl.
  - by rewrite IH.
  - rewrite <- Permutation_middle. by rewrite IH.
Qed.

(** The reindexing gives each task its position as order. *)
Lemma reindexFrom_lookup (ts : list Task.t) :
  forall (k : Z) (i : nat) (t : Task.t),
    useTasks.reindexFrom k ts !! i = Some t ->
    Task.order t = k + Z.of_nat i.
Proof.
  induction ts as [|a rest IH]; intros k i t; simpl; [done|].
  destruct i as [|i]; simpl.
  - intros [= <-]. simpl. lia.
  - intros Hl. rewrite (IH _ _ _ Hl). lia.
Qed.

(** Whatever is dragged where, on a task list with distinct ids whose
    orders strictly increase (a list as [fetchTasks], [addTask] and
    [reorderTasks] leave it), [handleDragEnd] hands the tasks to
    [reorderTasks] in the order they already have. *)
Lemma dragOutcome_keeps_sequence (filter : Filter) (tasks : list Task.t)
    (result : DropResult) (updatedTasks : list Task.t) :
  StronglySorted orderLt tasks ->
  NoDup (map Task.id tasks) ->
  dragOutcome filter tasks result = reorder updatedTasks ->
  updatedTasks = useTasks.reindex tasks.
Proof.
  intros Hs Hnd. unfold dragOutcome.
  destruct (destination_index result) as [endIndex|]; [|done].
  destruct (decide _); [done|].
  destruct (spliceOut _ _) as [[removed rest]|] eqn:Hout; [|done].
  intros [= <-]. f_equal.
  apply sortByOrder_restores; [done|].
  rewrite spliceIn_perm, (spliceOut_perm _ _ _ _ Hout).
  rewrite getFilteredTasks_filter.
  rewrite nonFilteredTasks_complement by done.
  apply filter_complement_perm.
Qed.

(** C1 (evaluation of the code).  Three tasks A, B, C with orders 0, 1, 2,
    B completed, under the filter [active]: the view shows A, C, and A is
    dragged below C.  The specified result is C, B, A with orders 0, 1, 2;
    [handleDragEnd] passes A, B, C with orders 0, 1, 2 to [reorderTasks],
    which stores exactly that. *)
Theorem drag_in_filtered_view_is_lost :
  let A := sampleTask "a" false 0 in
  let B := sampleTask "b" true 1 in
  let C := sampleTask "c" false 2 in
  let env := mkEnv (Some (mkUser "u1")) 0 "x" in
  let db := mkFirestore {[ "a" := A; "b" := B; "c" := C ]} ∅ ∅ in
  let s := useTasks.mk [A; B; C] false None in
  let drop := mkDrop 0%nat (Some 1%nat) in
  getFilteredTasks active [A; B; C] = [A; C]
  /\ specifiedReorder active [A; B; C] [C; A]
     = [sampleTask "c" false 0; sampleTask "b" true 1; sampleTask "a" false 2]
  /\ dragOutcome active [A; B; C] drop = reorder [A; B; C]
  /\ useTasks.tasks (snd (handleDragEnd env active drop db s)) = [A; B; C]
  /\ dragOutcome active [A; B; C] drop
     <> reorder (specifiedReorder active [A; B; C] [C; A]).
Proof.
  cbv zeta. split; [reflexivity|]. split; [reflexivity|].
  split; [reflexivity|]. split; [by vm_compute|].
  intros H. vm_compute in H. discriminate H.
Qed.
End DragAndDrop.

(** * Timer: mode switches *)

Section ModeSwitch.
Import PomodoroTimer.

(** The countdown after a switch to a different mode that goes through. *)
Lemma switchMode_countdown (settings : Settings.t) (newMode : TimerMode)
    (confirmed : bool) (s : state) :
  newMode <> mode s ->
  isActive s = false \/ confirmed = true ->
  let s' := switchMode settings newMode confirmed s in
  mode s' = newMode /\ timeLeft s' = modeDuration settings newMode.
Proof.
  intros Hne Hgo. unfold switchMode, setMode.
  destruct (isActive s) eqn:Hact.
  - destruct Hgo as [?| ->]; [done|]. simpl.
    destruct (decide _); [done|]. by simpl.
  - destruct (decide _); [done|]. by simpl.
Qed.

(** A confirmed switch away from a running timer clears the start time. *)
Lemma switchMode_running_clears (settings : Settings.t) (newMode : TimerMode)
    (s : state) :
  isActive s = true ->
  startTimeRef (switchMode settings newMode true s) = None.
Proof. intros Hact. unfold switchMode. by rewrite Hact. Qed.

(** The automatic advance clears the start time and sets the countdown of
    the mode it enters. *)
Lemma handleTimerComplete_resets (env : Env) (settings : Settings.t)
    (w : world) :
  let s' := timer (handleTimerComplete env settings w) in
  startTimeRef s' = None
  /\ mode s' = nextMode settings (timer w)
  /\ timeLeft s' = modeDuration settings (mode s').
Proof.
  destruct w as [[tl act md sel cp st] db0 hook0].
  unfold handleTimerComplete, nextMode, setMode; simpl.
  destruct md; simpl; [|by repeat split..].
  destruct sel as [tid|], st as [t0|]; simpl;
    try destruct (negb _);
    try destruct (usePomodoroSessions.addSession _ _ _ _) as [[? ?] ?];
    destruct (remIs _ _ _); simpl; by repeat split.
Qed.

(** A switch from a paused timer leaves the start time as it is. *)
Lemma switchMode_paused_start_time (settings : Settings.t)
    (newMode : TimerMode) (confirmed : bool) (s : state) :
  isActive s = false ->
  startTimeRef (switchMode settings newMode confirmed s) = startTimeRef s.
Proof.
  intros Hact. unfold switchMode, setMode. rewrite Hact.
  by destruct (decide _).
Qed.

(** C4 (evaluation of the code).  A task is selected, the timer is started
    at time 1000 and paused at time 5000, and the mode is switched to
    [shortBreak].  The countdown is the short break's 300 seconds, but the
    start time is still 1000 instead of being cleared; switched back to
    [work] and run to completion at time 2400000, the timer records a
    session that starts at 1000, before the countdown it belongs to was
    started (900000). *)
Theorem switch_while_paused_keeps_start_time :
  let settings := Settings.defaults in
  let s0 := selectTask "t1" (initial settings) in
  let started := fst (toggleTimer 1000 s0) in
  let paused := fst (toggleTimer 5000 started) in
  let switched := switchMode settings shortBreak false paused in
  let back := switchMode settings work false switched in
  let env := mkEnv (Some (mkUser "u1")) 2400000 "s1" in
  let w :=
    fullCountdown 900000 env settings
      (mkWorld back emptyStore (usePomodoroSessions.mk [] false None)) in
  isActive paused = false
  /\ mode switched = shortBreak
  /\ timeLeft switched = 300
  /\ startTimeRef switched = Some 1000
  /\ startTimeRef switched <> None
  /\ PomodoroSession.startTime <$> (col_pomodoroSessions (db w) !! "s1")
     = Some 1000.
Proof. cbv zeta. repeat split; by vm_compute. Qed.
End ModeSwitch.

(** * Settings store *)

Section SettingsStore.
Import useUserSettings.

(** The record created on first access is stored under the id the store
    picked, not under the user's id: the user's own settings document is
    still missing afterwards. *)
Lemma fetchSettings_leaves_user_key_empty (env : Env) (u : User)
    (db : Firestore) (s : state) :
  currentUser env = Some u ->
  col_userSettings db !! uid u = None ->
  autoId env <> uid u ->
  let db' := fst (fetchSettings env db s) in
  col_userSettings db' !! uid u = None
  /\ col_userSettings db' !! autoId env
     = Some (mkSettingsDoc (settings s) (Some (uid u))).
Proof.
  intros Hu Hmiss Hid. unfold fetchSettings, updateSettings, updateDoc.
  rewrite Hu, Hmiss. simpl. unfold addDoc. split.
  - by rewrite lookup_insert_ne.
  - by rewrite lookup_insert_eq.
Qed.

(** C3 (evaluation of the code).  User [u1] has no settings document.  The
    first access writes the defaults 25, 5, 15, 4 into a document with the
    id the store picked ([a1]); no document is stored under [u1], so the
    next access finds none again and writes a second document ([a2]): two
    records for one user, neither of which a fetch reads. *)
Theorem first_access_record_is_not_keyed_by_user :
  let u := mkUser "u1" in
  let first := fetchSettings (mkEnv (Some u) 0 "a1") emptyStore initial in
  let second := fetchSettings (mkEnv (Some u) 1 "a2") first.1 first.2 in
  let created := mkSettingsDoc (Settings.mk 25 5 15 4) (Some "u1") in
  col_userSettings first.1 !! "a1" = Some created
  /\ col_userSettings first.1 !! "u1" = None
  /\ col_userSettings second.1 !! "u1" = None
  /\ col_userSettings second.1 !! "a1" = Some created
  /\ col_userSettings second.1 !! "a2" = Some created
  /\ size (col_userSettings second.1) = 2%nat.
Proof. cbv zeta. repeat split; by vm_compute. Qed.
End SettingsStore.

(** * Progress aggregation *)

Section Progress.
Import ProgressTracker.

Lemma map_set_fresh (k v : Z) (m : DateMap) :
  Forall (fun b => b.1 < k) m -> map_set k v m = m ++ [(k, v)].
Proof.
  induction 1 as [|[k' v'] rest Hlt Hall IH]; simpl; [done|].
  simpl in Hlt. destruct (Z.eqb_spec k k'); [lia|]. by rewrite IH.
Qed.

Lemma dateKey_next_day (d : Z) : dateKey (d + DAY) = dateKey d + 1.
Proof. unfold dateKey, DAY. Z.div_mod_to_equations. lia. Qed.

(** Over [n] days on which the next local day is [DAY] milliseconds
    later, the day loop ends within [n] units of fuel and appends one zero
    bucket per day. *)
Lemma initDates_window (zone : TimeZone) (n : nat) :
  forall fuel d m,
    (n <= fuel)%nat ->
    (forall i : Z,
       0 <= i < Z.of_nat n ->
       addDays zone 1 (d + i * DAY) = d + (i + 1) * DAY) ->
    Forall (fun b => b.1 < dateKey d) m ->
    initDates zone fuel d (d + (Z.of_nat n - 1) * DAY) m
    = Some (m ++ dayBuckets (dateKey d) n).
Proof.
  induction n as [|n IH]; intros fuel d m Hfuel Hstep Hm.
  - assert ((d <=? d + (Z.of_nat 0 - 1) * DAY) = false) as Hend
      by (apply Z.leb_gt; unfold DAY; lia).
    destruct fuel; simpl; rewrite Hend; by rewrite app_nil_r.
  - destruct fuel as [|fuel]; [lia|].
    assert ((d <=? d + (Z.of_nat (S n) - 1) * DAY) = true) as Hgo
      by (apply Z.leb_le; unfold DAY; lia).
    simpl initDates. rewrite Hgo.
    rewrite (map_set_fresh _ _ _ Hm).
    assert (addDays zone 1 d = d + DAY) as ->.
    { specialize (Hstep 0). rewrite Z.mul_0_l, Z.add_0_r in Hstep.
      rewrite Hstep by lia. lia. }
    replace (d + (Z.of_nat (S n) - 1) * DAY)
      with ((d + DAY) + (Z.of_nat n - 1) * DAY) by lia.
    rewrite IH; [|lia| |].
    + rewrite dateKey_next_day. simpl. by rewrite <- app_assoc.
    + intros i Hi.
      replace (d + DAY + i * DAY) with (d + (i + 1) * DAY) by lia.
      rewrite Hstep by lia. lia.
    + rewrite dateKey_next_day. apply Forall_app. split.
      * eapply Forall_impl; [exact Hm|]. simpl. intros; lia.
      * repeat constructor. simpl. lia.
Qed.

Lemma dayBuckets_length (k : Z) (n : nat) : length (dayBuckets k n) = n.
Proof. revert k. induction n as [|n IH]; intros k; simpl; [done|]. by rewrite IH. Qed.

Lemma dayBuckets_zero (k : Z) (n : nat) :
  Forall (fun b => b.2 = 0) (dayBuckets k n).
Proof. revert k. induction n as [|n IH]; intros k; simpl; by constructor. Qed.

Lemma dayBuckets_lookup (k : Z) (n i : nat) :
  (i < n)%nat -> dayBuckets k n !! i = Some (k + Z.of_nat i, 0).
Proof.
  revert k i. induction n as [|n IH]; intros k i Hi; [lia|].
  destruct i as [|i]; simpl.
  - by rewrite Z.add_0_r.
  - rewrite IH by lia. do 2 f_equal. lia.
Qed.

(** With a steady offset, the local midnights of the window are the UTC
    instants the offset before their local time values. *)
Lemma steady_midnights (zone : TimeZone) (timeRange : TimeRange)
    (now o : Z) :
  steadyOffset zone timeRange now o ->
  let midnight := LocalTime zone now / DAY * DAY in
  forall j : Z,
    - Z.of_nat (windowLength timeRange) < j <= 1 ->
    UTC zone (midnight + j * DAY) = midnight + j * DAY - o
    /\ LocalTime zone (midnight + j * DAY - o) = midnight + j * DAY.
Proof.
  intros Hsteady midnight j Hj. destruct (Hsteady j Hj) as [Hl Hu].
  fold midnight in Hl, Hu. unfold UTC, LocalTime. rewrite Hl, Hu. lia.
Qed.

Lemma steady_window (zone : TimeZone) (timeRange : TimeRange) (now o : Z) :
  steadyOffset zone timeRange now o ->
  let midnight := LocalTime zone now / DAY * DAY in
  let n := Z.of_nat (windowLength timeRange) in
  let today := localMidnight zone now in
  let start := startDate zone timeRange today in
  today = midnight - o
  /\ start = midnight - (n - 1) * DAY - o
  /\ (forall i : Z,
        0 <= i < n -> addDays zone 1 (start + i * DAY) = start + (i + 1) * DAY).
Proof.
  intros Hsteady midnight n today start.
  pose proof (steady_midnights zone timeRange now o Hsteady) as Hm.
  fold midnight in Hm.
  assert (n = Z.of_nat (windowLength timeRange)) as Hn by reflexivity.
  assert (n = 7 \/ n = 30) as Hcases
    by (rewrite Hn; destruct timeRange; simpl; lia).
  clearbody n. rewrite <- Hn in Hm.
  assert (forall j k : Z,
            - n < j <= 1 -> - n < j + k <= 1 ->
            addDays zone k (midnight + j * DAY - o)
            = midnight + (j + k) * DAY - o) as Hadd.
  { intros j k Hj Hjk. unfold addDays.
    destruct (Hm j Hj) as [_ ->].
    replace (midnight + j * DAY + k * DAY) with (midnight + (j + k) * DAY)
      by lia.
    by destruct (Hm (j + k) Hjk) as [-> _]. }
  assert (today = midnight - o) as Htoday.
  { subst today. unfold localMidnight. fold midnight.
    replace midnight with (midnight + 0 * DAY) at 1 by lia.
    destruct (Hm 0) as [-> _]; lia. }
  assert (start = midnight - (n - 1) * DAY - o) as Hstart.
  { subst start. rewrite Htoday.
    replace (midnight - o) with (midnight + 0 * DAY - o) by lia.
    destruct timeRange; simpl in Hn; simpl startDate;
      rewrite Hadd by lia; lia. }
  split; [done|]. split; [done|].
  intros i Hi. rewrite Hstart.
  replace (midnight - (n - 1) * DAY - o + i * DAY)
    with (midnight + (i - (n - 1)) * DAY - o) by lia.
  rewrite Hadd by lia. lia.
Qed.

Lemma noWorkInWindow_filter (timeRange : TimeRange) (zone : TimeZone)
    (now : Z) (sessions : list PomodoroSession.t) :
  noWorkInWindow timeRange zone now sessions = true ->
  List.filter
    (inRange (startDate zone timeRange (localMidnight zone now))) sessions
  = [].
Proof.
  unfold noWorkInWindow.
  induction sessions as [|session rest IH]; simpl; [done|].
  intros [Hhead Hrest]%andb_prop. rewrite (IH Hrest).
  unfold inRange.
  apply orb_prop in Hhead as [Hbreak|Hearly].
  - apply bool_decide_eq_true_1 in Hbreak. rewrite Hbreak.
    by rewrite andb_false_r.
  - apply Z.ltb_lt in Hearly.
    by rewrite (proj2 (Z.leb_gt _ _) Hearly).
Qed.

(** The day loop of a window with a steady offset. *)
Lemma initDates_steady (zone : TimeZone) (timeRange : TimeRange)
    (now o : Z) :
  steadyOffset zone timeRange now o ->
  let today := localMidnight zone now in
  let start := startDate zone timeRange today in
  initDates zone dayLoopFuel start today []
  = Some (dayBuckets (dateKey start) (windowLength timeRange)).
Proof.
  intros Hsteady today start.
  pose proof (steady_window zone timeRange now o Hsteady) as Hwindow.
  cbv zeta in Hwindow. fold today in Hwindow. fold start in Hwindow.
  destruct Hwindow as (Htoday & Hstart & Hstep).
  clearbody start today.
  replace today
    with (start + (Z.of_nat (windowLength timeRange) - 1) * DAY) by lia.
  rewrite initDates_window; [done| |done|constructor].
  unfold dayLoopFuel. destruct timeRange; simpl; lia.
Qed.

(** C2 (as amended).  When the session list is not empty but holds no work
    session that starts in the window, and the UTC offset of the local
    time zone is the same at all local midnights from the first of the
    window to the one that ends today (no daylight-saving change among
    them), the effect produces one bucket per local midnight of the
    window, keyed by consecutive UTC days, each with count 0: 7 buckets
    for the week and 30 for the month.  When the session list is empty
    the effect returns at once and the chart data stay what they were. *)
Theorem zero_buckets_when_some_session_exists
    (sessions : list PomodoroSession.t) (timeRange : TimeRange)
    (zone : TimeZone) (now o : Z) (s : state)
    (Hsome : sessions <> [])
    (Hnone : noWorkInWindow timeRange zone now sessions = true)
    (Hsteady : steadyOffset zone timeRange now o) :
  (exists s',
     chartEffect false sessions timeRange zone now s = Some s'
     /\ length (chartData s') = windowLength timeRange
     /\ Forall (fun b => b.2 = 0) (chartData s')
     /\ (forall i, (i < windowLength timeRange)%nat ->
           chartData s' !! i
           = Some (dateKey (startDate zone timeRange (localMidnight zone now))
                   + Z.of_nat i, 0))
     /\ totalPomodoros s' = 0)
  /\ chartEffect false [] timeRange zone now s = Some s.
Proof.
  split; [|reflexivity].
  unfold chartEffect.
  change (false || bool_decide (sessions = []))
    with (bool_decide (sessions = [])).
  rewrite bool_decide_eq_false_2 by done. cbv zeta.
  rewrite (noWorkInWindow_filter _ _ _ _ Hnone).
  rewrite (initDates_steady zone timeRange now o Hsteady).
  eexists. split; [reflexivity|]. simpl.
  split; [apply dayBuckets_length|].
  split; [apply dayBuckets_zero|].
  split; [apply dayBuckets_lookup|done].
Qed.

Lemma zero_buckets_when_some_session_exists_witness :
  let sessions :=
    [PomodoroSession.mk (Some "s1") "t1" 1000 301000 300 break_session "u1"] in
  let zone := fixedZone 3600000 in
  let now := 5000 in
  sessions <> []
  /\ noWorkInWindow week zone now sessions = true
  /\ steadyOffset zone week now 3600000
  /\ ((exists s',
         chartEffect false sessions week zone now initial = Some s'
         /\ length (chartData s') = windowLength week
         /\ Forall (fun b => b.2 = 0) (chartData s')
         /\ (forall i, (i < windowLength week)%nat ->
               chartData s' !! i
               = Some (dateKey (startDate zone week (localMidnight zone now))
                       + Z.of_nat i, 0))
         /\ totalPomodoros s' = 0)
      /\ chartEffect false [] week zone now initial = Some initial).
Proof.
  intros sessions zone now.
  assert (sessions <> []) as Hsome by discriminate.
  assert (noWorkInWindow week zone now sessions = true) as Hnone
    by reflexivity.
  assert (steadyOffset zone week now 3600000) as Hsteady
    by (intros j _; split; reflexivity).
  do 3 (split; [assumption|]).
  exact (zero_buckets_when_some_session_exists sessions week zone now
           3600000 initial Hsome Hnone Hsteady).
Defined.

(** C2 as stated fails: with no session at all the window holds no work
    session, and the bucket list is empty, not of length 7. *)
Lemma no_sessions_no_buckets :
  noWorkInWindow week (fixedZone 0) 0 [] = true
  /\ exists s',
       chartEffect false [] week (fixedZone 0) 0 initial = Some s'
       /\ chartData s' = []
       /\ length (chartData s') <> 7%nat.
Proof.
  split; [reflexivity|]. exists initial.
  split; [reflexivity|]. split; [reflexivity|]. simpl. lia.
Qed.

(** Why the offset has to be steady.  Europe/London, 3 April 2024, 12:00
    local time, one break session in the list: the week's window starts
    on 28 March, summer time begins on 31 March, and the local midnights
    of 31 March and 1 April both fall on the UTC date 31 March.  The loop
    runs seven times and leaves six buckets. *)
Lemma spring_forward_week_has_six_buckets :
  let sessions :=
    [PomodoroSession.mk (Some "s1") "t1" 1711900000000 1711900300000 300
                        break_session "u1"] in
  let now := 19816 * DAY + 11 * 3600000 in
  noWorkInWindow week londonSpring2024 now sessions = true
  /\ exists s',
       chartEffect false sessions week londonSpring2024 now initial = Some s'
       /\ map fst (chartData s')
          = [19810; 19811; 19812; 19813; 19814; 19815]
       /\ length (chartData s') = 6%nat.
Proof.
  split; [by vm_compute|]. eexists. split; [by vm_compute|].
  split; reflexivity.
Qed.
End Progress.

(** * Task list: delete, update, reorder *)

Section TaskListOperations.
Import useTasks.

Lemma reindexFrom_ids (ts : list Task.t) (k : Z) :
  map Task.id (reindexFrom k ts) = map Task.id ts.
Proof.
  revert k. induction ts as [|a rest IH]; intros k; simpl; [done|].
  by rewrite IH.
Qed.

Lemma reindexFrom_twice (ts : list Task.t) (k : Z) :
  reindexFrom k (reindexFrom k ts) = reindexFrom k ts.
Proof.
  revert k. induction ts as [|a rest IH]; intros k; simpl; [done|].
  by rewrite IH.
Qed.

Lemma reindexFrom_above (ts : list Task.t) (k : Z) :
  Forall (fun t => k <= Task.order t) (reindexFrom k ts).
Proof.
  revert k. induction ts as [|a rest IH]; intros k; simpl; constructor.
  - simpl. lia.
  - eapply Forall_impl; [apply IH|]. simpl. intros; lia.
Qed.

Lemma reindexFrom_sorted (ts : list Task.t) (k : Z) :
  StronglySorted orderLt (reindexFrom k ts).
Proof.
  revert k. induction ts as [|a rest IH]; intros k; simpl; constructor.
  - apply IH.
  - eapply Forall_impl; [apply reindexFrom_above|].
    unfold orderLt. simpl. intros; lia.
Qed.

Lemma allStored_ids (ts ts' : list Task.t) (m m' : gmap string Task.t) :
  map Task.id ts = map Task.id ts' ->
  (forall k, is_Some (m !! k) <-> is_Some (m' !! k)) ->
  allStored ts m = allStored ts' m'.
Proof.
  intros Hids Hdom. unfold allStored.
  revert ts' Hids. induction ts as [|a rest IH]; intros [|a' rest'] Hids;
    simpl in *; try done.
  injection Hids as Ha Hrest. rewrite Ha, (IH _ Hrest). f_equal.
  destruct (Task.id a') as [i|]; [|done].
  apply bool_decide_ext, Hdom.
Qed.

Lemma updateDoc_dom {D F} (merge : D -> F -> D) (m m' : gmap string D)
    (key : string) (fields : F) :
  updateDoc merge m key fields = Some m' ->
  forall k, is_Some (m' !! k) <-> is_Some (m !! k).
Proof.
  unfold updateDoc. destruct (m !! key) as [d|] eqn:Hd; [|done].
  intros [= <-] k. destruct (decide (key = k)) as [<-|Hne].
  - rewrite lookup_insert_eq, Hd. split; eauto.
  - by rewrite lookup_insert_ne.
Qed.

(** The writes all go through exactly when every task has a stored
    document; in any case the set of document ids stays the same. *)
Lemma updateAll_spec (now : Z) (ts : list Task.t) :
  forall (m : gmap string Task.t) (ok : writes),
    let r := updateAll now ts m ok in
    (r.1 = written <-> ok = written /\ allStored ts m = true)
    /\ (forall k, is_Some (r.2 !! k) <-> is_Some (m !! k)).
Proof.
  induction ts as [|a rest IH]; intros m ok; simpl.
  { split; [|done]. split; [done|by intros [? _]]. }
  destruct (Task.id a) as [i|] eqn:Hid; simpl.
  2:{ split; [|done]. split; [done|]. by intros [_ ?]. }
  unfold updateDoc. destruct (m !! i) as [d|] eqn:Hd.
  - set (m1 := <[i:=_]> m).
    assert (forall k, is_Some (m1 !! k) <-> is_Some (m !! k)) as Hdom.
    { intros k. subst m1. destruct (decide (i = k)) as [<-|Hne].
      - rewrite lookup_insert_eq, Hd. split; eauto.
      - by rewrite lookup_insert_ne. }
    destruct (IH m1 ok) as [IH1 IH2]. split.
    + rewrite IH1. rewrite (allStored_ids rest rest m1 m eq_refl Hdom).
      rewrite bool_decide_eq_true_2 by eauto. simpl. done.
    + intros k. by rewrite IH2.
  - destruct (IH m rejected) as [IH1 IH2]. split; [|done].
    rewrite IH1. rewrite bool_decide_eq_false_2 by (by intros [? ?]).
    simpl. split; [by intros [? _]|by intros [_ ?]].
Qed.

(** After the writes, the document of each listed task carries the task's
    order and the write time; documents of other ids are untouched. *)
Lemma updateAll_lookup (now : Z) (ts : list Task.t) :
  forall (m : gmap string Task.t) (ok : writes),
    allStored ts m = true ->
    NoDup (map Task.id ts) ->
    let m' := (updateAll now ts m ok).2 in
    (forall task i d,
       In task ts -> Task.id task = Some i -> m !! i = Some d ->
       m' !! i = Some (Task.spread d (orderFields (Task.order task) now)))
    /\ (forall k, ~ In (Some k) (map Task.id ts) -> m' !! k = m !! k).
Proof.
  induction ts as [|a rest IH]; intros m ok Hst Hnd; simpl; [done|].
  simpl in Hst. apply andb_prop in Hst as [Ha Hrest].
  apply NoDup_cons in Hnd as [Hnotin Hnd].
  rewrite list_elem_of_In in Hnotin.
  destruct (Task.id a) as [i|] eqn:Hid; [|done].
  apply bool_decide_eq_true_1 in Ha as [d Hd].
  unfold updateDoc. rewrite Hd.
  set (m1 := <[i:=Task.spread d (orderFields (Task.order a) now)]> m).
  assert (forall k, is_Some (m1 !! k) <-> is_Some (m !! k)) as Hdom.
  { intros k. subst m1. destruct (decide (i = k)) as [<-|Hne].
    - rewrite lookup_insert_eq, Hd. split; eauto.
    - by rewrite lookup_insert_ne. }
  rewrite <- (allStored_ids rest rest m1 m eq_refl Hdom) in Hrest.
  destruct (IH m1 ok Hrest Hnd) as [IH1 IH2]. split.
  - intros task j d' [<-|Hin] Hj Hd'.
    + rewrite Hid in Hj. injection Hj as <-.
      rewrite IH2 by done. subst m1. rewrite lookup_insert_eq. congruence.
    + assert (j <> i) as Hne.
      { intros ->. apply Hnotin. rewrite <- Hj. by apply in_map. }
      apply (IH1 task j d' Hin Hj). subst m1. by rewrite lookup_insert_ne.
  - intros k Hk. rewrite IH2 by tauto. subst m1.
    rewrite lookup_insert_ne; [done|]. intros ->. tauto.
Qed.

(** X1.  [reorderTasks] by a signed-in user returns [true] exactly when
    every task handed to it has an id with a stored document.  Then the
    in-memory list is the handed list with each task's order set to its
    position, and, the ids being distinct, the stored document of each
    task carries that position as order and the time of the call as
    [updatedAt]; the other documents and collections are untouched.
    Otherwise it returns [false], reports the failure and leaves the
    in-memory list as it was. *)
Theorem reorderTasks_result (env : Env) (u : User) (ts : list Task.t)
    (db : Firestore) (s : state)
    (Hu : currentUser env = Some u) :
  exists ok db' s',
    reorderTasks env ts db s = (ok, db', s')
    /\ ok = allStored ts (col_tasks db)
    /\ col_pomodoroSessions db' = col_pomodoroSessions db
    /\ col_userSettings db' = col_userSettings db
    /\ (ok = false ->
        tasks s' = tasks s /\ error s' = Some "Failed to reorder tasks")
    /\ (ok = true ->
        tasks s' = reindex ts
        /\ (forall i t, tasks s' !! i = Some t -> Task.order t = Z.of_nat i)
        /\ (NoDup (map Task.id ts) ->
            (forall i t k,
               tasks s' !! i = Some t -> Task.id t = Some k ->
               exists d, col_tasks db' !! k = Some d
                         /\ Task.order d = Z.of_nat i
                         /\ Task.updatedAt d = now env)
            /\ (forall k, ~ In (Some k) (map Task.id ts) ->
                          col_tasks db' !! k = col_tasks db !! k))).
Proof.
  unfold reorderTasks. rewrite Hu.
  pose proof (updateAll_spec (now env) (reindex ts) (col_tasks db) written)
    as [Hflag _].
  pose proof (updateAll_lookup (now env) (reindex ts) (col_tasks db) written)
    as Hlook.
  assert (allStored (reindex ts) (col_tasks db) = allStored ts (col_tasks db))
    as Hsame by (apply allStored_ids; [apply reindexFrom_ids|done]).
  rewrite Hsame in Hflag, Hlook.
  unfold reindex in Hlook. rewrite reindexFrom_ids in Hlook.
  destruct (updateAll _ _ _ _) as [flag m'] eqn:Hup. simpl in *.
  destruct (allStored ts (col_tasks db)) eqn:Hst.
  - assert (flag = written) as -> by (by apply Hflag).
    eexists _, _, _. split; [reflexivity|].
    do 4 (split; [done|]). intros _. split; [done|]. split.
    { intros i t Hl. apply reindexFrom_lookup in Hl. lia. }
    intros Hnd. destruct (Hlook eq_refl Hnd) as [Hl1 Hl2]. split; [|exact Hl2].
    intros i t k Hl Hk.
    assert (In t (reindex ts)) as Hin
      by (apply list_elem_of_In, list_elem_of_lookup; eauto).
    assert (is_Some (col_tasks db !! k)) as [d Hd].
    { assert (In (Some k) (map Task.id ts)) as Hk'.
      { rewrite <- (reindexFrom_ids ts 0), <- Hk. by apply in_map. }
      apply in_map_iff in Hk' as (t0 & Hk0 & Hin0).
      unfold allStored in Hst. rewrite forallb_forall in Hst.
      specialize (Hst t0 Hin0). rewrite Hk0 in Hst.
      by apply bool_decide_eq_true_1 in Hst. }
    simpl. rewrite (Hl1 t k d Hin Hk Hd). eexists. split; [reflexivity|].
    simpl. apply reindexFrom_lookup in Hl. split; [lia|done].
  - assert (flag <> written) as Hflag'
      by (intros ->; destruct Hflag as [[_ ?] _]; done).
    destruct flag; [done|..];
      (eexists _, _, _; split; [reflexivity|]; repeat split; done).
Qed.

Lemma reorderTasks_result_witness :
  let u := mkUser "u1" in
  let env := mkEnv (Some u) 50 "x" in
  let A := sampleTask "a" false 7 in
  let B := sampleTask "b" true 3 in
  let db := mkFirestore {[ "a" := A; "b" := B ]} ∅ ∅ in
  let s := mk [B; A] false None in
  let ts := [A; B] in
  currentUser env = Some u
  /\ exists ok db' s',
       reorderTasks env ts db s = (ok, db', s')
       /\ ok = allStored ts (col_tasks db)
       /\ col_pomodoroSessions db' = col_pomodoroSessions db
       /\ col_userSettings db' = col_userSettings db
       /\ (ok = false ->
           tasks s' = tasks s /\ error s' = Some "Failed to reorder tasks")
       /\ (ok = true ->
           tasks s' = reindex ts
           /\ (forall i t, tasks s' !! i = Some t -> Task.order t = Z.of_nat i)
           /\ (NoDup (map Task.id ts) ->
               (forall i t k,
                  tasks s' !! i = Some t -> Task.id t = Some k ->
                  exists d, col_tasks db' !! k = Some d
                            /\ Task.order d = Z.of_nat i
                            /\ Task.updatedAt d = now env)
               /\ (forall k, ~ In (Some k) (map Task.id ts) ->
                             col_tasks db' !! k = col_tasks db !! k))).
Proof.
  intros u env A B db s ts. split; [reflexivity|].
  exact (reorderTasks_result env u ts db s eq_refl).
Defined.

(** X2.  Reordering is idempotent: after a [reorderTasks] that returned
    [true], handing the resulting in-memory list to [reorderTasks] again
    returns [true] and leaves the hook state exactly as it is. *)
Theorem reorderTasks_again (env1 env2 : Env) (u2 : User) (ts : list Task.t)
    (db db' : Firestore) (s s' : state)
    (Hu2 : currentUser env2 = Some u2)
    (Hfirst : reorderTasks env1 ts db s = (true, db', s')) :
  exists db'', reorderTasks env2 (tasks s') db' s' = (true, db'', s').
Proof.
  unfold reorderTasks in Hfirst.
  destruct (currentUser env1) as [u1|]; [|done].
  pose proof (updateAll_spec (now env1) (reindex ts) (col_tasks db) written)
    as [Hflag Hdom].
  destruct (updateAll _ _ _ _) as [flag m'] eqn:Hup. simpl in *.
  destruct flag; try done. injection Hfirst as <- <-.
  destruct Hflag as [Hflag _]. destruct (Hflag eq_refl) as [_ Hst].
  unfold reorderTasks. rewrite Hu2. simpl.
  unfold reindex. rewrite reindexFrom_twice.
  pose proof (updateAll_spec (now env2) (reindexFrom 0 ts) m' written)
    as [Hflag2 _].
  destruct (updateAll (now env2) _ _ _) as [flag2 m''] eqn:Hup2. simpl in *.
  assert (flag2 = written) as ->.
  { apply Hflag2. split; [done|]. unfold reindex in Hst.
    by rewrite (allStored_ids _ (reindexFrom 0 ts) m' (col_tasks db)
                  eq_refl Hdom). }
  by eexists.
Qed.

Lemma reorderTasks_again_witness :
  let u := mkUser "u1" in
  let env1 := mkEnv (Some u) 50 "x" in
  let env2 := mkEnv (Some u) 60 "y" in
  let A := sampleTask "a" false 7 in
  let B := sampleTask "b" true 3 in
  let db := mkFirestore {[ "a" := A; "b" := B ]} ∅ ∅ in
  let s := mk [B; A] false None in
  let r := reorderTasks env1 [A; B] db s in
  currentUser env2 = Some u
  /\ reorderTasks env1 [A; B] db s = (true, r.1.2, r.2)
  /\ exists db'', reorderTasks env2 (tasks r.2) r.1.2 r.2 = (true, db'', r.2).
Proof.
  intros u env1 env2 A B db s r.
  assert (reorderTasks env1 [A; B] db s = (true, r.1.2, r.2)) as Hfirst
    by (by vm_compute).
  split; [reflexivity|]. split; [exact Hfirst|].
  exact (reorderTasks_again env1 env2 u [A; B] db r.1.2 s r.2 eq_refl Hfirst).
Defined.

Lemma list_filter_sublist {A} (P : A -> bool) (l : list A) :
  sublist (List.filter P l) l.
Proof.
  induction l as [|a rest IH]; simpl; [constructor|].
  destruct (P a); by constructor.
Qed.

(** X3.  [deleteTask] by a signed-in user returns [true] whether or not
    the task exists.  Afterwards the store holds no task document under
    that id and every other document of every collection is as before, in
    particular the sessions that refer to the task; the in-memory list is
    the old one without the tasks of that id, the others in their old
    sequence. *)
Theorem deleteTask_result (env : Env) (u : User) (id : string)
    (db : Firestore) (s : state)
    (Hu : currentUser env = Some u) :
  exists db' s',
    deleteTask env id db s = (true, db', s')
    /\ col_tasks db' !! id = None
    /\ (forall k, k <> id -> col_tasks db' !! k = col_tasks db !! k)
    /\ col_pomodoroSessions db' = col_pomodoroSessions db
    /\ col_userSettings db' = col_userSettings db
    /\ (forall t, In t (tasks s') <-> In t (tasks s) /\ Task.id t <> Some id)
    /\ sublist (tasks s') (tasks s).
Proof.
  unfold deleteTask. rewrite Hu.
  eexists _, _. split; [reflexivity|]. simpl. unfold deleteDoc.
  split; [apply lookup_delete_eq|].
  split; [by intros k Hk; rewrite lookup_delete_ne|].
  do 2 (split; [done|]). split; [|apply list_filter_sublist].
  intros t. rewrite filter_In. split.
  - intros [Hin Hid]. split; [done|].
    apply negb_true_iff, bool_decide_eq_false_1 in Hid. done.
  - intros [Hin Hid]. split; [done|].
    by apply negb_true_iff, bool_decide_eq_false_2.
Qed.

Lemma deleteTask_result_witness :
  let u := mkUser "u1" in
  let env := mkEnv (Some u) 50 "x" in
  let A := sampleTask "a" false 0 in
  let B := sampleTask "b" true 1 in
  let db := mkFirestore {[ "a" := A; "b" := B ]} ∅ ∅ in
  let s := mk [A; B] false None in
  currentUser env = Some u
  /\ exists db' s',
       deleteTask env "a" db s = (true, db', s')
       /\ col_tasks db' !! "a" = None
       /\ (forall k, k <> "a" -> col_tasks db' !! k = col_tasks db !! k)
       /\ col_pomodoroSessions db' = col_pomodoroSessions db
       /\ col_userSettings db' = col_userSettings db
       /\ (forall t,
             In t (tasks s') <-> In t (tasks s) /\ Task.id t <> Some "a")
       /\ sublist (tasks s') (tasks s).
Proof.
  intros u env A B db s. split; [reflexivity|].
  exact (deleteTask_result env u "a" db s eq_refl).
Defined.

Lemma filter_all_kept {A} (P : A -> bool) (l : list A) :
  Forall (fun x => P x = true) l -> List.filter P l = l.
Proof.
  induction 1 as [|a rest Ha _ IH]; simpl; [done|]. by rewrite Ha, IH.
Qed.

(** X4.  Adding a task and deleting it again is a round trip: when the id
    the store picks for the new task is new to the store and to the
    in-memory list, [addTask] followed by [deleteTask] of that id restores
    the store and the in-memory list. *)
Theorem addTask_deleteTask_round_trip (env env' : Env) (u u' : User)
    (d : taskData) (db : Firestore) (s : state)
    (Hu : currentUser env = Some u)
    (Hu' : currentUser env' = Some u')
    (Hnew : col_tasks db !! autoId env = None)
    (Hfresh : Forall (fun t => Task.id t <> Some (autoId env)) (tasks s)) :
  let '(_, db1, s1) := addTask env d db s in
  let '(_, db2, s2) := deleteTask env' (autoId env) db1 s1 in
  db2 = db /\ tasks s2 = tasks s.
Proof.
  unfold addTask, deleteTask. rewrite Hu, Hu'. simpl. split.
  - unfold deleteDoc, addDoc, set_tasks. simpl.
    rewrite delete_insert_eq, (delete_id _ _ Hnew). by destruct db.
  - rewrite List.filter_app. simpl.
    rewrite bool_decide_eq_true_2 by done. simpl. rewrite app_nil_r.
    apply filter_all_kept. eapply Forall_impl; [exact Hfresh|].
    intros t Ht. by apply negb_true_iff, bool_decide_eq_false_2.
Qed.

Lemma addTask_deleteTask_round_trip_witness :
  let u := mkUser "u1" in
  let env := mkEnv (Some u) 50 "n" in
  let env' := mkEnv (Some u) 60 "m" in
  let d := mkData "new" None in
  let A := sampleTask "a" false 0 in
  let db := mkFirestore {[ "a" := A ]} ∅ ∅ in
  let s := mk [A] false None in
  currentUser env = Some u
  /\ currentUser env' = Some u
  /\ col_tasks db !! autoId env = None
  /\ Forall (fun t => Task.id t <> Some (autoId env)) (tasks s)
  /\ (let '(_, db1, s1) := addTask env d db s in
      let '(_, db2, s2) := deleteTask env' (autoId env) db1 s1 in
      db2 = db /\ tasks s2 = tasks s).
Proof.
  intros u env env' d A db s.
  assert (col_tasks db !! autoId env = None) as Hnew by (by vm_compute).
  assert (Forall (fun t => Task.id t <> Some (autoId env)) (tasks s)) as Hfresh
    by (repeat constructor; discriminate).
  do 2 (split; [reflexivity|]). do 2 (split; [assumption|]).
  exact (addTask_deleteTask_round_trip env env' u u d db s eq_refl eq_refl
           Hnew Hfresh).
Defined.

(** X5.  [updateTask] by a signed-in user on a task that has a stored
    document returns [true]; the document keeps every field the update
    does not mention, takes the mentioned ones, and gets the time of the
    call as [updatedAt]; the other documents and collections are untouched
    and, position by position, the in-memory tasks of that id are updated
    in the same way while the others stay as they are.  On an id without
    document it returns [false], writes nothing, leaves the in-memory
    tasks as they were and reports the failure. *)
Theorem updateTask_result (env : Env) (u : User) (id : string)
    (p : Task.partial) (db : Firestore) (s : state)
    (Hu : currentUser env = Some u) :
  match col_tasks db !! id with
  | Some d =>
      exists db' s' d',
        updateTask env id p db s = (true, db', s')
        /\ col_tasks db' !! id = Some d'
        /\ updatedFrom (now env) p d d'
        /\ (forall k, k <> id -> col_tasks db' !! k = col_tasks db !! k)
        /\ col_pomodoroSessions db' = col_pomodoroSessions db
        /\ col_userSettings db' = col_userSettings db
        /\ length (tasks s') = length (tasks s)
        /\ (forall i t,
              tasks s !! i = Some t ->
              exists t',
                tasks s' !! i = Some t'
                /\ (Task.id t = Some id -> updatedFrom (now env) p t t')
                /\ (Task.id t <> Some id -> t' = t))
  | None =>
      exists s',
        updateTask env id p db s = (false, db, s')
        /\ tasks s' = tasks s
        /\ error s' = Some "Failed to update task"
  end.
Proof.
  assert (forall t, updatedFrom (now env) p t
                      (Task.spread t (Task.with_updatedAt (now env) p)))
    as Hspread.
  { intros t. unfold updatedFrom. destruct p as [? ? ? ? ? ? ? ? ?]. simpl.
    repeat split;
      match goal with |- _ = match ?o with _ => _ end => by destruct o end. }
  unfold updateTask, updateDoc. rewrite Hu.
  destruct (col_tasks db !! id) as [d|] eqn:Hd.
  - eexists _, _, _. split; [reflexivity|]. simpl.
    split; [apply lookup_insert_eq|]. split; [apply Hspread|].
    split; [by intros k Hk; rewrite lookup_insert_ne|].
    do 2 (split; [done|]).
    split; [by rewrite length_map|].
    intros i t Hl. rewrite list_lookup_fmap, Hl. simpl.
    eexists. split; [reflexivity|].
    destruct (decide (Task.id t = Some id)); split;
      by try (intros _; apply Hspread).
  - by eexists.
Qed.

Lemma updateTask_result_witness :
  let u := mkUser "u1" in
  let env := mkEnv (Some u) 50 "x" in
  let A := sampleTask "a" false 0 in
  let db := mkFirestore {[ "a" := Task.set_id None A ]} ∅ ∅ in
  let s := mk [A] false None in
  let p :=
    Task.mkPartial None None None (Some true) None None None None None in
  currentUser env = Some u
  /\ match col_tasks db !! "a" with
     | Some d =>
         exists db' s' d',
           updateTask env "a" p db s = (true, db', s')
           /\ col_tasks db' !! "a" = Some d'
           /\ updatedFrom (now env) p d d'
           /\ (forall k, k <> "a" -> col_tasks db' !! k = col_tasks db !! k)
           /\ col_pomodoroSessions db' = col_pomodoroSessions db
           /\ col_userSettings db' = col_userSettings db
           /\ length (tasks s') = length (tasks s)
           /\ (forall i t,
                 tasks s !! i = Some t ->
                 exists t',
                   tasks s' !! i = Some t'
                   /\ (Task.id t = Some "a" -> updatedFrom (now env) p t t')
                   /\ (Task.id t <> Some "a" -> t' = t))
     | None =>
         exists s',
           updateTask env "a" p db s = (false, db, s')
           /\ tasks s' = tasks s
           /\ error s' = Some "Failed to update task"
     end.
Proof.
  intros u env A db s p. split; [reflexivity|].
  exact (updateTask_result env u "a" p db s eq_refl).
Defined.

Lemma filter_strongly_sorted {A} (R : A -> A -> Prop) (P : A -> bool)
    (l : list A) :
  StronglySorted R l -> StronglySorted R (List.filter P l).
Proof.
  induction 1 as [|a rest Hs IH Hall]; simpl; [constructor|].
  destruct (P a); [|done]. constructor; [done|].
  apply Forall_forall. intros x Hx.
  apply list_elem_of_In, filter_In in Hx as [Hx _].
  rewrite Forall_forall in Hall. by apply Hall, list_elem_of_In.
Qed.

Lemma filter_NoDup_map {A B} (f : A -> B) (P : A -> bool) (l : list A) :
  NoDup (map f l) -> NoDup (map f (List.filter P l)).
Proof.
  induction l as [|a rest IH]; simpl; [done|].
  intros [Hnotin Hnd]%NoDup_cons. destruct (P a); [|by apply IH].
  simpl. apply NoDup_cons. split; [|by apply IH].
  rewrite list_elem_of_In in *. intros Hin. apply Hnotin.
  apply in_map_iff in Hin as (x & Hx & Hin).
  apply filter_In in Hin as [Hin _]. rewrite <- Hx. by apply in_map.
Qed.

(** X6.  The operations of the task hook keep the in-memory list in
    strictly increasing order with distinct ids: [addTask] does when the
    id picked by the store is not yet in the list, [deleteTask] always,
    and [reorderTasks] when the list handed to it has distinct ids. *)
Theorem task_list_stays_ordered (db : Firestore) (s : state)
    (Hwf : orderedDistinct (tasks s)) :
  (forall env d,
     Forall (fun t => Task.id t <> Some (autoId env)) (tasks s) ->
     orderedDistinct (tasks (addTask env d db s).2))
  /\ (forall env id, orderedDistinct (tasks (deleteTask env id db s).2))
  /\ (forall env ts,
        NoDup (map Task.id ts) ->
        orderedDistinct (tasks (reorderTasks env ts db s).2)).
Proof.
  destruct Hwf as [Hs Hnd]. split; [|split].
  - intros env d Hfresh. unfold addTask.
    destruct (currentUser env) as [u|]; [|by split]. simpl. split.
    + apply StronglySorted_app. split; [|split; [done|repeat constructor]].
      intros x1 x2 Hx1 Hx2. apply list_elem_of_singleton in Hx2 as ->.
      apply list_elem_of_In, highestOrder_upper in Hx1.
      unfold orderLt. simpl. lia.
    + rewrite map_app. apply NoDup_app. split; [done|]. split.
      * intros x Hx Hx'. simpl in Hx'.
        apply list_elem_of_singleton in Hx' as ->.
        apply list_elem_of_In, in_map_iff in Hx as (t & Ht & Hin).
        rewrite Forall_forall in Hfresh.
        by apply (Hfresh t); [apply list_elem_of_In|].
      * simpl. apply NoDup_singleton.
  - intros env id. unfold deleteTask.
    destruct (currentUser env) as [u|]; [|by split]. simpl. split.
    + by apply filter_strongly_sorted.
    + by apply filter_NoDup_map.
  - intros env ts Hts. unfold reorderTasks.
    destruct (currentUser env) as [u|]; [|by split].
    destruct (updateAll _ _ _ _) as [[| |] m']; simpl; try by split.
    split; [apply reindexFrom_sorted|].
    unfold reindex. by rewrite reindexFrom_ids.
Qed.

Lemma task_list_stays_ordered_witness :
  let A := sampleTask "a" false 0 in
  let B := sampleTask "b" true 1 in
  let db := mkFirestore {[ "a" := A; "b" := B ]} ∅ ∅ in
  let s := mk [A; B] false None in
  orderedDistinct (tasks s)
  /\ ((forall env d,
         Forall (fun t => Task.id t <> Some (autoId env)) (tasks s) ->
         orderedDistinct (tasks (addTask env d db s).2))
      /\ (forall env id, orderedDistinct (tasks (deleteTask env id db s).2))
      /\ (forall env ts,
            NoDup (map Task.id ts) ->
            orderedDistinct (tasks (reorderTasks env ts db s).2))).
Proof.
  intros A B db s.
  assert (orderedDistinct (tasks s)) as Hwf.
  { split.
    - repeat constructor; unfold orderLt; simpl; lia.
    - compute_done. }
  split; [exact Hwf|].
  exact (task_list_stays_ordered db s Hwf).
Defined.
End TaskListOperations.

(** * Task list: the filtered views and the drag *)

Section Views.
Import TaskManager.

(** X7.  The three views of the task list: [all] is the list itself,
    [active] and [completed] each keep the tasks in the sequence of the
    list, and every task is in exactly one of the two. *)
Theorem filtered_views_partition (tasks : list Task.t) :
  getFilteredTasks all tasks = tasks
  /\ sublist (getFilteredTasks active tasks) tasks
  /\ sublist (getFilteredTasks completed tasks) tasks
  /\ getFilteredTasks active tasks ++ getFilteredTasks completed tasks
     ≡ₚ tasks
  /\ (forall t, In t (getFilteredTasks active tasks) ->
                In t (getFilteredTasks completed tasks) -> False).
Proof.
  split; [done|]. split; [apply list_filter_sublist|].
  split; [apply list_filter_sublist|]. split.
  - simpl. rewrite Permutation_app_comm.
    apply (filter_complement_perm Task.completed).
  - simpl. intros t [_ H1]%filter_In [_ H2]%filter_In.
    rewrite H2 in H1. done.
Qed.

(** X8.  On a task list with distinct ids whose orders strictly increase,
    whatever the filter and wherever an item is dropped, the list that
    [handleDragEnd] hands to [reorderTasks] is the full list in the
    sequence it already has, with each order set to the position. *)
Theorem handleDragEnd_hands_over_old_sequence (filter : Filter)
    (tasks : list Task.t) (result : DropResult) (updatedTasks : list Task.t)
    (Hwf : orderedDistinct tasks)
    (Hcall : dragOutcome filter tasks result = reorder updatedTasks) :
  updatedTasks = useTasks.reindex tasks
  /\ map Task.id updatedTasks = map Task.id tasks.
Proof.
  destruct Hwf as [Hs Hnd].
  assert (updatedTasks = useTasks.reindex tasks) as ->
    by (by apply (dragOutcome_keeps_sequence filter tasks result)).
  split; [done|]. apply reindexFrom_ids.
Qed.

Lemma handleDragEnd_hands_over_old_sequence_witness :
  let A := sampleTask "a" false 0 in
  let B := sampleTask "b" false 5 in
  let C := sampleTask "c" false 9 in
  let tasks := [A; B; C] in
  let result := mkDrop 2%nat (Some 0%nat) in
  let updatedTasks :=
    [sampleTask "a" false 0; sampleTask "b" false 1; sampleTask "c" false 2] in
  orderedDistinct tasks
  /\ dragOutcome all tasks result = reorder updatedTasks
  /\ updatedTasks = useTasks.reindex tasks
  /\ map Task.id updatedTasks = map Task.id tasks.
Proof.
  intros A B C tasks result updatedTasks.
  assert (orderedDistinct tasks) as Hwf.
  { split.
    - repeat constructor; unfold orderLt; simpl; lia.
    - compute_done. }
  assert (dragOutcome all tasks result = reorder updatedTasks) as Hcall
    by reflexivity.
  do 2 (split; [assumption|]).
  exact (handleDragEnd_hands_over_old_sequence all tasks result updatedTasks
           Hwf Hcall).
Defined.

(** X25.  Ticking a task moves it between the views.  After
    [handleToggleComplete] by a signed-in user on a task that has a stored
    document, the document and every in-memory task of that id carry the
    new [completed] flag: such a task is shown under the matching filter
    and not under the opposite one.  Tasks of other ids are as before. *)
Theorem toggle_moves_task_between_views (env : Env) (u : User)
    (taskId : string) (isCompleted : bool) (db : Firestore)
    (s : useTasks.state)
    (Hu : currentUser env = Some u)
    (Hdoc : is_Some (col_tasks db !! taskId)) :
  let '(db', s') := handleToggleComplete env taskId isCompleted db s in
  let shown := if isCompleted then completed else active in
  let hidden := if isCompleted then active else completed in
  (exists d, col_tasks db' !! taskId = Some d
             /\ Task.completed d = isCompleted)
  /\ length (useTasks.tasks s') = length (useTasks.tasks s)
  /\ (forall t, In t (useTasks.tasks s') -> Task.id t = Some taskId ->
        In t (getFilteredTasks shown (useTasks.tasks s'))
        /\ ~ In t (getFilteredTasks hidden (useTasks.tasks s')))
  /\ (forall t, Task.id t <> Some taskId ->
        (In t (useTasks.tasks s') <-> In t (useTasks.tasks s))).
Proof.
  destruct Hdoc as [d Hd].
  unfold handleToggleComplete, useTasks.updateTask, updateDoc.
  rewrite Hu, Hd. simpl.
  set (p := Task.with_updatedAt _ _).
  assert (forall t, In t (map (fun task =>
                                 if decide (Task.id task = Some taskId)
                                 then Task.spread task p else task)
                              (useTasks.tasks s)) ->
                    Task.id t = Some taskId ->
                    Task.completed t = isCompleted) as Hflag.
  { intros t (t0 & <- & Hin)%in_map_iff.
    destruct (decide (Task.id t0 = Some taskId)); [done|].
    intros; congruence. }
  split; [|split; [|split]].
  - eexists. split; [apply lookup_insert_eq|done].
  - by rewrite length_map.
  - intros t Hin Hid. pose proof (Hflag t Hin Hid) as Hc.
    destruct isCompleted; simpl; rewrite !filter_In, Hc; simpl;
      (split; [by split|by intros [_ ?]]).
  - intros t Hid. rewrite in_map_iff. split.
    + intros (t0 & Ht & Hin).
      destruct (decide (Task.id t0 = Some taskId)) as [Hid0|_];
        [|by subst].
      subst t. simpl in Hid. congruence.
    + intros Hin. exists t. split; [|done].
      by destruct (decide (Task.id t = Some taskId)).
Qed.

Lemma toggle_moves_task_between_views_witness :
  let u := mkUser "u1" in
  let env := mkEnv (Some u) 50 "x" in
  let A := sampleTask "a" false 0 in
  let B := sampleTask "b" false 1 in
  let db :=
    mkFirestore {[ "a" := Task.set_id None A; "b" := Task.set_id None B ]}
                ∅ ∅ in
  let s := useTasks.mk [A; B] false None in
  currentUser env = Some u
  /\ is_Some (col_tasks db !! "a")
  /\ (let '(db', s') := handleToggleComplete env "a" true db s in
      let shown := if true then completed else active in
      let hidden := if true then active else completed in
      (exists d, col_tasks db' !! "a" = Some d /\ Task.completed d = true)
      /\ length (useTasks.tasks s') = length (useTasks.tasks s)
      /\ (forall t, In t (useTasks.tasks s') -> Task.id t = Some "a" ->
            In t (getFilteredTasks shown (useTasks.tasks s'))
            /\ ~ In t (getFilteredTasks hidden (useTasks.tasks s')))
      /\ (forall t, Task.id t <> Some "a" ->
            (In t (useTasks.tasks s') <-> In t (useTasks.tasks s)))).
Proof.
  intros u env A B db s.
  assert (is_Some (col_tasks db !! "a")) as Hdoc by (by eexists; vm_compute).
  split; [reflexivity|]. split; [exact Hdoc|].
  exact (toggle_moves_task_between_views env u "a" true db s eq_refl Hdoc).
Defined.
End Views.

(** * Timer: countdown, pause, completion *)

Section TimerBehaviour.
Import PomodoroTimer.

(** X9.  While the timer runs with more than [n] seconds left, [n]
    firings of the interval take [n] seconds off the countdown and change
    nothing else: the timer keeps running, no session is written. *)
Theorem ticks_count_down (env : Env) (settings : Settings.t) (n : nat)
    (s : state) (db0 : Firestore) (hook0 : usePomodoroSessions.state)
    (Hact : isActive s = true)
    (Hleft : Z.of_nat n < timeLeft s) :
  ticks n env settings (mkWorld s db0 hook0)
  = mkWorld (set_timeLeft (timeLeft s - Z.of_nat n) s) db0 hook0.
Proof.
  revert s Hact Hleft. induction n as [|n IH]; intros s Hact Hleft.
  - simpl. rewrite Z.sub_0_r. by destruct s.
  - simpl. unfold tick at 1. simpl. rewrite Hact.
    destruct (Z.leb_spec (timeLeft s) 1) as [?|_]; [lia|].
    rewrite IH; [|done|simpl; lia].
    rewrite set_timeLeft_twice. simpl. do 2 f_equal. lia.
Qed.

Lemma ticks_count_down_witness :
  let env := mkEnv None 0 "x" in
  let settings := Settings.defaults in
  let s := mk 1500 true work (Some "t1") 0 (Some 1000) in
  let hook0 := usePomodoroSessions.mk [] false None in
  isActive s = true
  /\ Z.of_nat 600 < timeLeft s
  /\ ticks 600 env settings (mkWorld s emptyStore hook0)
     = mkWorld (set_timeLeft (timeLeft s - Z.of_nat 600) s) emptyStore hook0.
Proof.
  intros env settings s hook0.
  assert (Z.of_nat 600 < timeLeft s) as Hleft by reflexivity.
  split; [reflexivity|]. split; [exact Hleft|].
  exact (ticks_count_down env settings 600 s emptyStore hook0 eq_refl Hleft).
Defined.

(** X10.  Pausing a running timer and resuming it is a round trip: the
    pause stops the timer and keeps the countdown, and the resume gives
    back the state before the pause, with the start time of the first
    start, not the time of the resume. *)
Theorem pause_then_resume (t0 t1 t2 : Z) (s : state)
    (Hact : isActive s = true)
    (Hstart : startTimeRef s = Some t0)
    (Htask : mode s = work -> taskSelected (selectedTaskId s) = true) :
  let paused := (toggleTimer t1 s).1 in
  isActive paused = false
  /\ timeLeft paused = timeLeft s
  /\ toggleTimer t2 paused = (s, None).
Proof.
  destruct s as [tl act md sel cp st]. simpl in *. subst act st.
  unfold toggleTimer, setIsActive, activeEffect. simpl.
  split; [done|]. split; [done|].
  destruct md; simpl; [|done..].
  by rewrite Htask.
Qed.

Lemma pause_then_resume_witness :
  let s := mk 900 true work (Some "t1") 2 (Some 1000) in
  isActive s = true
  /\ startTimeRef s = Some 1000
  /\ (mode s = work -> taskSelected (selectedTaskId s) = true)
  /\ (let paused := (toggleTimer 5000 s).1 in
      isActive paused = false
      /\ timeLeft paused = timeLeft s
      /\ toggleTimer 9000 paused = (s, None)).
Proof.
  intros s.
  assert (mode s = work -> taskSelected (selectedTaskId s) = true) as Htask
    by reflexivity.
  do 2 (split; [reflexivity|]). split; [exact Htask|].
  exact (pause_then_resume 1000 5000 9000 s eq_refl eq_refl Htask).
Defined.

(** X11.  The completion of a break countdown writes nothing and counts
    nothing: store, session list, selected task and the count of
    completed work countdowns are unchanged; the timer is stopped in work
    mode with the full work countdown and no start time. *)
Theorem break_completion_writes_nothing (env : Env) (settings : Settings.t)
    (w : world)
    (Hbreak : mode (timer w) <> work) :
  handleTimerComplete env settings w
  = mkWorld (mk (Settings.workDuration settings * 60) false work
                (selectedTaskId (timer w)) (completedPomodoros (timer w))
                None)
            (db w) (hook w).
Proof.
  destruct w as [[tl act md sel cp st] db0 hook0]. simpl in *.
  unfold handleTimerComplete, nextMode, setMode. simpl.
  by destruct md.
Qed.

Lemma break_completion_writes_nothing_witness :
  let env := mkEnv (Some (mkUser "u1")) 400000 "s1" in
  let settings := Settings.defaults in
  let w :=
    mkWorld (mk 0 true shortBreak (Some "t1") 1 (Some 100000)) emptyStore
            (usePomodoroSessions.mk [] false None) in
  mode (timer w) <> work
  /\ handleTimerComplete env settings w
     = mkWorld (mk (Settings.workDuration settings * 60) false work
                   (selectedTaskId (timer w)) (completedPomodoros (timer w))
                   None)
               (db w) (hook w).
Proof.
  intros env settings w.
  assert (mode (timer w) <> work) as Hbreak by discriminate.
  split; [exact Hbreak|].
  exact (break_completion_writes_nothing env settings w Hbreak).
Defined.

(** X12.  The completion of a work countdown is counted exactly when a
    task is selected and a start time is recorded, whether or not the
    session could be stored: with nobody signed in the count still goes
    up by one although the store and the session list are unchanged.
    Without a selected task or without a start time nothing is counted
    and nothing is written. *)
Theorem work_completion_count (env : Env) (settings : Settings.t) (w : world)
    (Hwork : mode (timer w) = work) :
  let w' := handleTimerComplete env settings w in
  let recorded :=
    taskSelected (selectedTaskId (timer w))
    && bool_decide (is_Some (startTimeRef (timer w))) in
  completedPomodoros (timer w')
  = completedPomodoros (timer w) + (if recorded then 1 else 0)
  /\ (currentUser env = None -> db w' = db w /\ hook w' = hook w)
  /\ (recorded = false -> db w' = db w /\ hook w' = hook w).
Proof.
  destruct w as [[tl act md sel cp st] db0 hook0]. simpl in *. subst md.
  unfold handleTimerComplete, nextMode, setMode,
    usePomodoroSessions.addSession. simpl.
  destruct sel as [tid|], st as [t0|]; simpl;
    try (destruct (negb (bool_decide (tid = ""))) eqn:Hsel; simpl);
    try (destruct (currentUser env) as [u|]; simpl);
    destruct (remIs _ _ _); simpl;
    (split; [lia|split; intros; done]).
Qed.

Lemma work_completion_count_witness :
  let env := mkEnv None 1600000 "s1" in
  let settings := Settings.defaults in
  let w :=
    mkWorld (mk 0 true work (Some "t1") 3 (Some 100000)) emptyStore
            (usePomodoroSessions.mk [] false None) in
  mode (timer w) = work
  /\ (let w' := handleTimerComplete env settings w in
      let recorded :=
        taskSelected (selectedTaskId (timer w))
        && bool_decide (is_Some (startTimeRef (timer w))) in
      completedPomodoros (timer w')
      = completedPomodoros (timer w) + (if recorded then 1 else 0)
      /\ (currentUser env = None -> db w' = db w /\ hook w' = hook w)
      /\ (recorded = false -> db w' = db w /\ hook w' = hook w)).
Proof.
  intros env settings w. split; [reflexivity|].
  exact (work_completion_count env settings w eq_refl).
Defined.

(** X13.  Resetting and starting again restarts the interval: after
    [resetTimer] the next start is stamped with its own time and runs the
    full countdown of the current mode, whatever start time and countdown
    the timer held before. *)
Theorem reset_then_start (settings : Settings.t) (now : Z) (s : state)
    (Htask : mode s = work -> taskSelected (selectedTaskId s) = true) :
  let s' := (toggleTimer now (resetTimer settings s)).1 in
  isActive s' = true
  /\ startTimeRef s' = Some now
  /\ timeLeft s' = modeDuration settings (mode s)
  /\ mode s' = mode s
  /\ completedPomodoros s' = completedPomodoros s.
Proof.
  destruct s as [tl act md sel cp st]. simpl in *.
  unfold toggleTimer, resetTimer, setIsActive, activeEffect. simpl.
  destruct md; simpl; [|done..].
  by rewrite Htask.
Qed.

Lemma reset_then_start_witness :
  let s := mk 700 false work (Some "t1") 2 (Some 1000) in
  (mode s = work -> taskSelected (selectedTaskId s) = true)
  /\ (let s' := (toggleTimer 90000 (resetTimer Settings.defaults s)).1 in
      isActive s' = true
      /\ startTimeRef s' = Some 90000
      /\ timeLeft s' = modeDuration Settings.defaults (mode s)
      /\ mode s' = mode s
      /\ completedPomodoros s' = completedPomodoros s).
Proof.
  intros s.
  assert (mode s = work -> taskSelected (selectedTaskId s) = true) as Htask
    by reflexivity.
  split; [exact Htask|].
  exact (reset_then_start Settings.defaults 90000 s Htask).
Defined.
End TimerBehaviour.

(** * Settings: saving and loading *)

Section SettingsBehaviour.
Import useUserSettings.

(** X16.  Saving and loading settings is a round trip for a user whose
    settings document exists: [updateSettings] returns [true], overwrites
    the four settings of that document and touches no other document, and
    a later [fetchSettings] of the same user, from any hook state, loads
    exactly the saved settings and writes nothing. *)
Theorem settings_round_trip (env env' : Env) (u : User) (x : Settings.t)
    (db : Firestore) (s s0 : state)
    (Hu : currentUser env = Some u)
    (Hu' : currentUser env' = Some u)
    (Hdoc : is_Some (col_userSettings db !! uid u)) :
  exists db1 s1 doc,
    updateSettings env x db s = (true, db1, s1)
    /\ settings s1 = x
    /\ col_userSettings db1 !! uid u = Some doc
    /\ sd_settings doc = x
    /\ (forall k, k <> uid u ->
                  col_userSettings db1 !! k = col_userSettings db !! k)
    /\ col_tasks db1 = col_tasks db
    /\ col_pomodoroSessions db1 = col_pomodoroSessions db
    /\ exists s2,
         fetchSettings env' db1 s0 = (db1, s2)
         /\ settings s2 = x /\ loading s2 = false.
Proof.
  destruct Hdoc as [d Hd].
  unfold updateSettings, updateDoc. rewrite Hu, Hd.
  eexists _, _, _. split; [reflexivity|]. simpl.
  split; [done|]. split; [apply lookup_insert_eq|]. split; [done|].
  split; [by intros k Hk; rewrite lookup_insert_ne|].
  do 2 (split; [done|]).
  unfold fetchSettings. rewrite Hu'. simpl. rewrite lookup_insert_eq.
  by eexists.
Qed.

Lemma settings_round_trip_witness :
  let u := mkUser "u1" in
  let env := mkEnv (Some u) 10 "a1" in
  let env' := mkEnv (Some u) 20 "a2" in
  let x := Settings.mk 50 10 30 2 in
  let db :=
    mkFirestore ∅ ∅ {[ "u1" := mkSettingsDoc Settings.defaults None ]} in
  let s := initial in
  currentUser env = Some u
  /\ currentUser env' = Some u
  /\ is_Some (col_userSettings db !! uid u)
  /\ exists db1 s1 doc,
       updateSettings env x db s = (true, db1, s1)
       /\ settings s1 = x
       /\ col_userSettings db1 !! uid u = Some doc
       /\ sd_settings doc = x
       /\ (forall k, k <> uid u ->
                     col_userSettings db1 !! k = col_userSettings db !! k)
       /\ col_tasks db1 = col_tasks db
       /\ col_pomodoroSessions db1 = col_pomodoroSessions db
       /\ exists s2,
            fetchSettings env' db1 s = (db1, s2)
            /\ settings s2 = x /\ loading s2 = false.
Proof.
  intros u env env' x db s.
  assert (is_Some (col_userSettings db !! uid u)) as Hdoc
    by (by eexists; vm_compute).
  do 2 (split; [reflexivity|]). split; [exact Hdoc|].
  exact (settings_round_trip env env' u x db s s eq_refl eq_refl Hdoc).
Defined.

(** X17.  The settings dialog saves only numbers in range.  [handleSave]
    closes the dialog exactly when all four numbers are at least 1, the
    work and long-break durations at most 120 and the short break at most
    60.  Out of range it shows an error and changes neither the store nor
    the settings of the hook; in range, for a signed-in user, the
    settings of the hook become the four numbers. *)
Theorem handleSave_validates (env : Env) (f : TimerSettings.state)
    (db : Firestore) (hook : state) :
  let '(f', closed, db', hook') := TimerSettings.handleSave env f db hook in
  let inRange :=
    1 <= TimerSettings.workDuration f <= 120
    /\ 1 <= TimerSettings.shortBreakDuration f <= 60
    /\ 1 <= TimerSettings.longBreakDuration f <= 120
    /\ 1 <= TimerSettings.longBreakInterval f in
  (closed = true <-> inRange)
  /\ (closed = false ->
      db' = db /\ hook' = hook /\ is_Some (TimerSettings.error f'))
  /\ (closed = true -> is_Some (currentUser env) ->
      settings hook'
      = Settings.mk (TimerSettings.workDuration f)
                    (TimerSettings.shortBreakDuration f)
                    (TimerSettings.longBreakDuration f)
                    (TimerSettings.longBreakInterval f)).
Proof.
  unfold TimerSettings.handleSave.
  destruct (Z.ltb_spec (TimerSettings.workDuration f) 1);
    destruct (Z.ltb_spec (TimerSettings.shortBreakDuration f) 1);
    destruct (Z.ltb_spec (TimerSettings.longBreakDuration f) 1);
    destruct (Z.ltb_spec (TimerSettings.longBreakInterval f) 1);
    simpl;
    try (split; [split; [done|lia]|split; [by eauto|done]]).
  destruct (Z.ltb_spec 120 (TimerSettings.workDuration f));
    destruct (Z.ltb_spec 60 (TimerSettings.shortBreakDuration f));
    destruct (Z.ltb_spec 120 (TimerSettings.longBreakDuration f));
    simpl;
    try (split; [split; [done|lia]|split; [by eauto|done]]).
  unfold updateSettings, updateDoc.
  destruct (currentUser env) as [u|]; simpl.
  - destruct (col_userSettings db !! uid u); simpl;
      (split; [split; [lia|done]|split; [done|done]]).
  - split; [split; [lia|done]|]. split; [done|]. by intros _ [? ?].
Qed.
End SettingsBehaviour.

(** * Progress aggregation: counting *)

Section ProgressCounting.
Import ProgressTracker.






Lemma dayBuckets_above (k : Z) (n : nat) :
  Forall (fun b => k <= b.1) (dayBuckets k n).
Proof.
  revert k. induction n as [|n IH]; intros k; simpl; constructor.
  - simpl. lia.
  - eapply Forall_impl; [apply IH|]. simpl. intros; lia.
Qed.

Lemma dayBuckets_keys_NoDup (k : Z) (n : nat) :
  NoDup (map fst (dayBuckets k n)).
Proof.
  revert k. induction n as [|n IH]; intros k; simpl; constructor; [|done].
  intros Hin. apply list_elem_of_In, in_map_iff in Hin as (b & Hb & Hin).
  pose proof (dayBuckets_above (k + 1) n) as Hall.
  rewrite Forall_forall in Hall.
  apply list_elem_of_In, Hall in Hin. lia.
Qed.

Lemma dayBuckets_sum (k : Z) (n : nat) : bucketSum (dayBuckets k n) = 0.
Proof.
  revert k. induction n as [|n IH]; intros k; simpl; [done|].
  by rewrite IH.
Qed.

















Lemma inRange_filter_work (start : Z) (l : list PomodoroSession.t) :
  List.filter (inRange start) l
  = List.filter (fun x => start <=? PomodoroSession.startTime x)
      (List.filter
         (fun x => bool_decide (PomodoroSession.type x = work_session)) l).
Proof.
  induction l as [|x rest IH]; simpl; [done|]. unfold inRange at 1.
  destruct (bool_decide (PomodoroSession.type x = work_session)); simpl.
  - rewrite andb_true_r. by rewrite IH.
  - rewrite andb_false_r. done.
Qed.

(** X19.  Break sessions never reach the chart: two non-empty session
    lists with the same work sessions give the same buckets and totals. *)
Theorem chart_ignores_break_sessions
    (sessions1 sessions2 : list PomodoroSession.t) (timeRange : TimeRange)
    (zone : TimeZone) (now : Z) (s : state)
    (Hsome1 : sessions1 <> []) (Hsome2 : sessions2 <> [])
    (Hwork :
       List.filter
         (fun x => bool_decide (PomodoroSession.type x = work_session))
         sessions1
       = List.filter
           (fun x => bool_decide (PomodoroSession.type x = work_session))
           sessions2) :
  chartEffect false sessions1 timeRange zone now s
  = chartEffect false sessions2 timeRange zone now s.
Proof.
  unfold chartEffect. rewrite !orb_false_l.
  rewrite !bool_decide_eq_false_2 by done. cbv zeta.
  by rewrite !inRange_filter_work, Hwork.
Qed.

Lemma chart_ignores_break_sessions_witness :
  let W :=
    PomodoroSession.mk (Some "s2") "t1" 90000000 91500000 1500 work_session
                       "u1" in
  let B :=
    PomodoroSession.mk (Some "s1") "t1" 91500000 91800000 300 break_session
                       "u1" in
  let isWork := fun x : PomodoroSession.t =>
    bool_decide (PomodoroSession.type x = work_session) in
  [B; W] <> []
  /\ [W] <> []
  /\ List.filter isWork [B; W] = List.filter isWork [W]
  /\ chartEffect false [B; W] week (fixedZone 0) 100000000 initial
     = chartEffect false [W] week (fixedZone 0) 100000000 initial.
Proof.
  intros W B isWork.
  assert ([B; W] <> []) as H1 by discriminate.
  assert ([W] <> []) as H2 by discriminate.
  assert (List.filter isWork [B; W] = List.filter isWork [W]) as H3
    by reflexivity.
  do 3 (split; [assumption|]).
  exact (chart_ignores_break_sessions [B; W] [W] week (fixedZone 0) 100000000
           initial H1 H2 H3).
Defined.
End ProgressCounting.

(** * Progress aggregation: statistics per task *)

Section TaskStatistics.
Import ProgressTracker.

Lemma stats_set_keys (k : option string) (v : TaskWithStats) (m : StatsMap) :
  map fst (stats_set k v m)
  = map fst m ++ (if bool_decide (k ∈ map fst m) then [] else [k]).
Proof.
  induction m as [|[k' v'] rest IH]; simpl; [done|].
  destruct (decide (k = k')) as [->|Hne]; simpl.
  - rewrite bool_decide_eq_true_2 by (by left). by rewrite app_nil_r.
  - rewrite IH. do 2 f_equal.
    rewrite (bool_decide_ext (k ∈ k' :: map fst rest) (k ∈ map fst rest));
      [done|].
    rewrite elem_of_cons. split; [by intros [?|?]|by right].
Qed.

Lemma stats_set_values (k : option string) (v : TaskWithStats) (m : StatsMap)
    (P : option string * TaskWithStats -> Prop) :
  P (k, v) -> Forall P m -> Forall P (stats_set k v m).
Proof.
  intros Hv. induction 1 as [|[k' v'] rest Hb Hall IH]; simpl.
  - by repeat constructor.
  - destruct (decide (k = k')); by constructor.
Qed.

Lemma stats_set_sum (k : option string) (v : TaskWithStats) (m : StatsMap) :
  ts_pomodorosCompleted v = 0 ->
  Forall (fun kv => ts_pomodorosCompleted kv.2 = 0) m ->
  Forall (fun kv => ts_pomodorosCompleted kv.2 = 0) (stats_set k v m).
Proof. intros Hv. by apply stats_set_values. Qed.

Lemma initStats_spec (tasks : list Task.t) :
  forall (index : nat) (m : StatsMap),
    statsInvariant m ->
    Forall (fun kv => ts_pomodorosCompleted kv.2 = 0) m ->
    let m' := initStats index tasks m in
    statsInvariant m'
    /\ Forall (fun kv => ts_pomodorosCompleted kv.2 = 0) m'
    /\ (forall k, k ∈ map fst m' <-> k ∈ map fst m \/ k ∈ map Task.id tasks).
Proof.
  induction tasks as [|task rest IH]; intros index m [Hnd Hinv] Hzero; simpl.
  { split; [by split|]. split; [done|]. intros k. rewrite elem_of_nil. tauto. }
  set (v := mkStats _ _ _ _ _).
  destruct (IH (S index) (stats_set (Task.id task) v m)) as (Hi & Hz & Hk).
  - split.
    + rewrite stats_set_keys. case_bool_decide; [by rewrite app_nil_r|].
      apply NoDup_app. split; [done|]. split; [|apply NoDup_singleton].
      intros x Hx Hx'. by apply list_elem_of_singleton in Hx' as ->.
    + by apply stats_set_values.
  - by apply stats_set_sum.
  - split; [done|]. split; [done|]. intros k. rewrite Hk, stats_set_keys.
    rewrite elem_of_app, elem_of_cons. case_bool_decide.
    + rewrite elem_of_nil. split; [|intros [?|[->|?]]; tauto]. tauto.
    + rewrite list_elem_of_singleton. tauto.
Qed.

Lemma stats_sum_values (m : StatsMap) :
  Forall (fun kv => ts_pomodorosCompleted kv.2 = 0) m ->
  statsSum (map snd m) = 0.
Proof.
  induction 1 as [|kv rest Hz _ IH]; simpl; [done|]. rewrite Hz, IH. done.
Qed.

Lemma addToStats_spec (session : PomodoroSession.t) (m : StatsMap) :
  statsInvariant m ->
  let m' := addToStats session m in
  statsInvariant m'
  /\ map fst m' = map fst m
  /\ statsSum (map snd m')
     = statsSum (map snd m)
       + (if bool_decide (Some (PomodoroSession.taskId session) ∈ map fst m)
          then 1 else 0).
Proof.
  induction m as [|[k v] rest IH]; intros [Hnd Hinv]; simpl.
  { split; [by split|]. split; [done|].
    first [done|rewrite bool_decide_eq_false_2; [done|apply not_elem_of_nil]]. }
  simpl in Hnd. apply NoDup_cons in Hnd as [Hnotin Hnd].
  apply Forall_cons in Hinv as [[Hid Hpos] Hinv]. simpl in Hid, Hpos.
  destruct (decide (k = Some (PomodoroSession.taskId session))) as [->|Hne];
    simpl.
  - split; [split; [by constructor|]|].
    { constructor; [simpl; split; [done|lia]|done]. }
    split; [done|]. rewrite bool_decide_eq_true_2 by (by left). lia.
  - destruct (IH (conj Hnd Hinv)) as ([Hnd' Hinv'] & Hk & Hsum).
    split; [split|].
    + simpl. rewrite Hk. by constructor.
    + by constructor.
    + split; [by rewrite Hk|]. rewrite Hsum.
      rewrite (bool_decide_ext
                 (Some (PomodoroSession.taskId session) ∈ k :: map fst rest)
                 (Some (PomodoroSession.taskId session) ∈ map fst rest)).
      * lia.
      * rewrite elem_of_cons. split; [by intros [?|?]|by right].
Qed.

Lemma addAllToStats_spec (l : list PomodoroSession.t) :
  forall m : StatsMap,
    statsInvariant m ->
    let m' := fold_left (fun m session => addToStats session m) l m in
    statsInvariant m'
    /\ map fst m' = map fst m
    /\ statsSum (map snd m')
       = statsSum (map snd m)
         + Z.of_nat
             (length
                (List.filter
                   (fun session =>
                      bool_decide
                        (Some (PomodoroSession.taskId session) ∈ map fst m))
                   l)).
Proof.
  induction l as [|session rest IH]; intros m Hinv; simpl.
  { split; [done|]. split; [done|]. lia. }
  destruct (addToStats_spec session m Hinv) as (Hinv1 & Hk1 & Hsum1).
  destruct (IH (addToStats session m) Hinv1) as (Hinv2 & Hk2 & Hsum2).
  split; [done|]. split; [by rewrite Hk2|].
  rewrite Hsum2, Hsum1, Hk1.
  destruct (bool_decide _); simpl; lia.
Qed.

Lemma insertStat_perm (a : TaskWithStats) (xs : list TaskWithStats) :
  insertStat a xs ≡ₚ a :: xs.
Proof.
  induction xs as [|b rest IH]; simpl; [done|].
  destruct (_ <=? 0); [done|]. rewrite IH. apply perm_swap.
Qed.

Lemma sortStats_perm (xs : list TaskWithStats) : sortStats xs ≡ₚ xs.
Proof.
  induction xs as [|a rest IH]; simpl; [done|].
  unfold sortStats in IH. by rewrite insertStat_perm, IH.
Qed.

Lemma insertStat_sorted (a : TaskWithStats) (xs : list TaskWithStats) :
  StronglySorted
    (fun x y => ts_pomodorosCompleted y <= ts_pomodorosCompleted x) xs ->
  StronglySorted
    (fun x y => ts_pomodorosCompleted y <= ts_pomodorosCompleted x)
    (insertStat a xs).
Proof.
  induction 1 as [|b rest Hs IH Hall]; simpl.
  - repeat constructor.
  - destruct (Z.leb_spec (ts_pomodorosCompleted b - ts_pomodorosCompleted a) 0).
    + constructor; [by constructor|].
      constructor; [lia|]. eapply Forall_impl; [exact Hall|].
      simpl. intros; lia.
    + constructor; [done|]. rewrite insertStat_perm.
      constructor; [lia|done].
Qed.

Lemma statsSum_perm (xs ys : list TaskWithStats) :
  xs ≡ₚ ys -> statsSum xs = statsSum ys.
Proof. induction 1; simpl; lia. Qed.

Lemma statsSum_positive_rows (xs : list TaskWithStats) :
  Forall (fun r => 0 <= ts_pomodorosCompleted r) xs ->
  statsSum (List.filter (fun r => 0 <? ts_pomodorosCompleted r) xs)
  = statsSum xs.
Proof.
  induction 1 as [|r rest Hr _ IH]; simpl; [done|].
  destruct (Z.ltb_spec 0 (ts_pomodorosCompleted r)); simpl; lia.
Qed.

Lemma taskStatsOf_rows (tasks : list Task.t)
    (filteredSessions : list PomodoroSession.t) :
  let rows := taskStatsOf tasks filteredSessions in
  Forall (fun r => 0 < ts_pomodorosCompleted r) rows
  /\ StronglySorted
       (fun x y => ts_pomodorosCompleted y <= ts_pomodorosCompleted x) rows
  /\ NoDup (map ts_id rows)
  /\ (forall r, r ∈ rows -> ts_id r ∈ map Task.id tasks)
  /\ statsSum rows
     = Z.of_nat (length (List.filter (ofListedTask tasks) filteredSessions)).
Proof.
  unfold taskStatsOf. cbv zeta.
  destruct (initStats_spec tasks 0 []) as (Hinv0 & Hzero & Hkeys0).
  { split; [constructor|constructor]. }
  { constructor. }
  destruct (addAllToStats_spec filteredSessions (initStats 0 tasks []) Hinv0)
    as ([Hnd Hinv] & Hkeys & Hsum).
  set (m := fold_left _ filteredSessions _) in *.
  assert (map ts_id (map snd m) = map fst m) as Hids.
  { clear -Hinv. induction Hinv as [|kv rest [Hid _] _ IH]; simpl; [done|].
    by rewrite Hid, IH. }
  assert (Forall (fun r => 0 <= ts_pomodorosCompleted r) (map snd m)) as Hpos.
  { clear -Hinv. induction Hinv as [|kv rest [_ Hp] _ IH]; by constructor. }
  set (positive := List.filter _ (map snd m)).
  assert (forall r, r ∈ positive -> r ∈ map snd m /\ 0 < ts_pomodorosCompleted r)
    as Hin.
  { intros r Hr. apply list_elem_of_In, filter_In in Hr as [Hr Hc].
    split; [by apply list_elem_of_In|by apply Z.ltb_lt]. }
  split; [|split; [|split; [|split]]].
  - rewrite sortStats_perm. apply Forall_forall. intros r Hr. by apply Hin.
  - unfold sortStats. induction positive as [|a rest IH]; simpl;
      [constructor|]. apply insertStat_sorted, IH.
    intros r Hr. apply Hin. by right.
  - rewrite sortStats_perm. subst positive.
    apply filter_NoDup_map. by rewrite Hids.
  - intros r Hr. rewrite sortStats_perm in Hr. apply Hin in Hr as [Hr _].
    assert (ts_id r ∈ map fst m) as Hk.
    { rewrite <- Hids. apply list_elem_of_In, in_map, list_elem_of_In, Hr. }
    rewrite Hkeys in Hk. apply Hkeys0 in Hk as [Hk|Hk]; [|done].
    by apply elem_of_nil in Hk.
  - rewrite (statsSum_perm _ _ (sortStats_perm positive)). subst positive.
    rewrite statsSum_positive_rows by done.
    rewrite Hsum, (stats_sum_values _ Hzero), Z.add_0_l. do 2 f_equal.
    apply filter_ext. intros session. unfold ofListedTask.
    apply bool_decide_ext. rewrite Hkeys0. rewrite elem_of_nil. tauto.
Qed.

(** X20.  The statistics per task.  Every row has at least one session,
    the rows are in descending order of their session count, no task has
    two rows and every row belongs to a task of the list.  The counts add
    up to the number of the given sessions that refer to a listed task:
    a session of a task that is no longer in the list is left out. *)
Theorem task_statistics_rows (tasks : list Task.t)
    (filteredSessions : list PomodoroSession.t) :
  let rows := taskStatsOf tasks filteredSessions in
  Forall (fun r => 0 < ts_pomodorosCompleted r) rows
  /\ StronglySorted
       (fun x y => ts_pomodorosCompleted y <= ts_pomodorosCompleted x) rows
  /\ NoDup (map ts_id rows)
  /\ (forall r, r ∈ rows -> ts_id r ∈ map Task.id tasks)
  /\ statsSum rows
     = Z.of_nat (length (List.filter (ofListedTask tasks) filteredSessions))
  /\ statsSum rows <= Z.of_nat (length filteredSessions).
Proof.
  destruct (taskStatsOf_rows tasks filteredSessions)
    as (H1 & H2 & H3 & H4 & H5).
  do 5 (split; [assumption|]).
  rewrite H5. apply inj_le, List.filter_length_le.
Qed.
End TaskStatistics.

(** * History: the title of a session's task *)

Section History.
Import TaskHistory.

Lemma buildTaskMap_other (tasks : list Task.t) :
  forall (m : gmap string entry) (k : string),
    ~ In k (map keyOf tasks) ->
    fold_left
      (fun m task =>
         <[keyOf task := mkEntry (Task.title task) (Task.description task)]> m)
      tasks m !! k
    = m !! k.
Proof.
  induction tasks as [|t rest IH]; intros m k Hk; simpl in *; [done|].
  rewrite IH by tauto. apply lookup_insert_ne. tauto.
Qed.

Lemma buildTaskMap_found (tasks : list Task.t) :
  forall (m : gmap string entry) (t : Task.t),
    NoDup (map keyOf tasks) -> In t tasks ->
    fold_left
      (fun m task =>
         <[keyOf task := mkEntry (Task.title task) (Task.description task)]> m)
      tasks m !! keyOf t
    = Some (mkEntry (Task.title t) (Task.description t)).
Proof.
  induction tasks as [|a rest IH]; intros m t Hnd Hin; simpl in *; [done|].
  apply NoDup_cons in Hnd as [Hnotin Hnd].
  destruct Hin as [->|Hin]; [|by apply IH].
  rewrite buildTaskMap_other by (by rewrite <- list_elem_of_In).
  apply lookup_insert_eq.
Qed.

Lemma keyOf_ids (tasks : list Task.t) :
  Forall (fun t => is_Some (Task.id t)) tasks ->
  map Task.id tasks = map Some (map keyOf tasks).
Proof.
  induction 1 as [|t rest [i Hi] _ IH]; simpl; [done|].
  unfold keyOf at 1. rewrite Hi. simpl. by rewrite IH.
Qed.

(** X21.  The history shows the title of a session's task while the task
    is in the list, and "Unknown Task" once it is deleted; the deletion
    itself leaves the stored sessions alone.  (All tasks of the list carry
    their id and the ids are distinct, as in a fetched list.) *)
Theorem history_title_before_and_after_delete (env : Env) (u : User)
    (db : Firestore) (s : useTasks.state) (t : Task.t) (id : string)
    (session : PomodoroSession.t)
    (Hu : currentUser env = Some u)
    (Hids : Forall (fun t => is_Some (Task.id t)) (useTasks.tasks s))
    (Hnd : NoDup (map Task.id (useTasks.tasks s)))
    (Hin : In t (useTasks.tasks s))
    (Hid : Task.id t = Some id)
    (Htitle : Task.title t <> "")
    (Hsession : PomodoroSession.taskId session = id) :
  displayTitle (buildTaskMap (useTasks.tasks s)) session = Task.title t
  /\ (let '(_, db', s') := useTasks.deleteTask env id db s in
      col_pomodoroSessions db' = col_pomodoroSessions db
      /\ displayTitle (buildTaskMap (useTasks.tasks s')) session
         = "Unknown Task").
Proof.
  assert (keyOf t = id) as Hkey by (unfold keyOf; by rewrite Hid).
  split.
  - unfold displayTitle, buildTaskMap. rewrite Hsession, <- Hkey.
    rewrite buildTaskMap_found; [| |done].
    + simpl. by rewrite bool_decide_eq_false_2.
    + rewrite (keyOf_ids _ Hids) in Hnd. clear -Hnd.
      induction (map keyOf (useTasks.tasks s)) as [|k rest IH]; simpl in *;
        [constructor|].
      apply NoDup_cons in Hnd as [Hnotin Hnd]. constructor; [|by apply IH].
      intros Hk. apply Hnotin, list_elem_of_In, in_map.
      by apply list_elem_of_In.
  - unfold useTasks.deleteTask. rewrite Hu. split; [done|]. simpl.
    unfold displayTitle, buildTaskMap. rewrite Hsession.
    rewrite buildTaskMap_other; [by rewrite lookup_empty|].
    intros Hk. apply in_map_iff in Hk as (t' & Hk' & Hin').
    apply filter_In in Hin' as [Hin' Hne].
    apply negb_true_iff, bool_decide_eq_false_1 in Hne.
    rewrite Forall_forall in Hids.
    destruct (Hids t' (proj2 (list_elem_of_In _ _) Hin')) as [i Hi].
    unfold keyOf in Hk'. rewrite Hi in Hk'. simpl in Hk'. congruence.
Qed.

Lemma history_title_before_and_after_delete_witness :
  let u := mkUser "u1" in
  let env := mkEnv (Some u) 50 "x" in
  let A := sampleTask "a" false 0 in
  let B := sampleTask "b" true 1 in
  let session :=
    PomodoroSession.mk (Some "s1") "a" 1000 1501000 1500 work_session "u1" in
  let db := mkFirestore {[ "a" := A; "b" := B ]} {[ "s1" := session ]} ∅ in
  let s := useTasks.mk [A; B] false None in
  currentUser env = Some u
  /\ Forall (fun t => is_Some (Task.id t)) (useTasks.tasks s)
  /\ NoDup (map Task.id (useTasks.tasks s))
  /\ In A (useTasks.tasks s)
  /\ Task.id A = Some "a"
  /\ Task.title A <> ""
  /\ PomodoroSession.taskId session = "a"
  /\ displayTitle (buildTaskMap (useTasks.tasks s)) session = Task.title A
  /\ (let '(_, db', s') := useTasks.deleteTask env "a" db s in
      col_pomodoroSessions db' = col_pomodoroSessions db
      /\ displayTitle (buildTaskMap (useTasks.tasks s')) session
         = "Unknown Task").
Proof.
  intros u env A B session db s.
  assert (Forall (fun t => is_Some (Task.id t)) (useTasks.tasks s)) as Hids
    by (repeat constructor; by eexists).
  assert (NoDup (map Task.id (useTasks.tasks s))) as Hnd by compute_done.
  assert (In A (useTasks.tasks s)) as Hin by (by left).
  assert (Task.title A <> "") as Htitle by discriminate.
  split; [reflexivity|]. do 3 (split; [assumption|]).
  split; [reflexivity|]. split; [assumption|]. split; [reflexivity|].
  exact (history_title_before_and_after_delete env u db s A "a" session
           eq_refl Hids Hnd Hin eq_refl Htitle eq_refl).
Defined.
End History.

(** * Task list: fetching *)

Section Fetch.
Import useTasks.

Lemma insertDoc_perm (a : string * Task.t) (xs : list (string * Task.t)) :
  insertDoc a xs ≡ₚ a :: xs.
Proof.
  induction xs as [|b rest IH]; simpl; [done|].
  destruct (docBefore a b); [done|]. rewrite IH. apply perm_swap.
Qed.

Lemma queryTasks_perm (uid : string) (col : gmap string Task.t) :
  queryTasks uid col
  ≡ₚ List.filter (fun kd => bool_decide (Task.userId kd.2 = uid))
       (map_to_list col).
Proof.
  unfold queryTasks.
  induction (List.filter _ _) as [|a rest IH]; simpl; [done|].
  by rewrite insertDoc_perm, IH.
Qed.

Lemma insertDoc_sorted (a : string * Task.t) (xs : list (string * Task.t)) :
  StronglySorted (fun x y => Task.order x.2 <= Task.order y.2) xs ->
  StronglySorted (fun x y => Task.order x.2 <= Task.order y.2)
                 (insertDoc a xs).
Proof.
  induction 1 as [|b rest Hs IH Hall]; simpl.
  - repeat constructor.
  - unfold docBefore.
    destruct (Z.ltb_spec (Task.order a.2) (Task.order b.2));
      destruct (Z.eqb_spec (Task.order a.2) (Task.order b.2));
      destruct (String.leb a.1 b.1); simpl;
      try (constructor; [by constructor|];
           constructor; [lia|];
           eapply Forall_impl; [exact Hall|]; simpl; intros; lia);
      (constructor; [done|]; rewrite insertDoc_perm;
       constructor; [lia|done]).
Qed.

Lemma queryTasks_sorted (uid : string) (col : gmap string Task.t) :
  StronglySorted (fun x y => Task.order x.2 <= Task.order y.2)
                 (queryTasks uid col).
Proof.
  unfold queryTasks.
  induction (List.filter _ _) as [|a rest IH]; simpl; [constructor|].
  by apply insertDoc_sorted.
Qed.

Lemma withId_order (kd : string * Task.t) :
  Task.order (withId kd) = Task.order kd.2.
Proof. unfold withId. by destruct (Task.id kd.2). Qed.

Lemma fetched_sorted (l : list (string * Task.t)) :
  StronglySorted (fun x y => Task.order x.2 <= Task.order y.2) l ->
  StronglySorted orderLe (map withId l).
Proof.
  induction 1 as [|a rest Hs IH Hall]; simpl; constructor; [done|].
  apply Forall_forall. intros t Ht.
  apply list_elem_of_In, in_map_iff in Ht as (kd & <- & Hin).
  rewrite Forall_forall in Hall. apply list_elem_of_In, Hall in Hin.
  unfold orderLe. by rewrite !withId_order.
Qed.

Lemma queryTasks_elem (uid : string) (col : gmap string Task.t)
    (k : string) (d : Task.t) :
  In (k, d) (queryTasks uid col)
  <-> col !! k = Some d /\ Task.userId d = uid.
Proof.
  rewrite <- list_elem_of_In, queryTasks_perm, list_elem_of_In, filter_In.
  rewrite <- list_elem_of_In, elem_of_map_to_list. simpl.
  by rewrite bool_decide_eq_true.
Qed.

Lemma queryTasks_keys_NoDup (uid : string) (col : gmap string Task.t) :
  NoDup (map fst (queryTasks uid col)).
Proof.
  rewrite queryTasks_perm. apply filter_NoDup_map.
  apply NoDup_fst_map_to_list.
Qed.

(** X22.  [fetchTasks] for a signed-in user loads exactly the task
    documents of that user, each with its document id as [id], in
    ascending order of their [order]; no id occurs twice; [loading] ends
    [false].  (The stored documents have no [id] field, as the hook writes
    them.)  With nobody signed in the list is emptied. *)
Theorem fetchTasks_result (env : Env) (u : User) (db : Firestore) (s : state)
    (Hu : currentUser env = Some u)
    (Hnoid : noIdField (col_tasks db)) :
  let s' := fetchTasks env db s in
  (forall t,
     In t (tasks s')
     <-> exists k d,
           col_tasks db !! k = Some d /\ Task.userId d = uid u
           /\ t = Task.set_id (Some k) d)
  /\ StronglySorted orderLe (tasks s')
  /\ NoDup (map Task.id (tasks s'))
  /\ loading s' = false
  /\ (forall env0,
        currentUser env0 = None -> tasks (fetchTasks env0 db s) = []).
Proof.
  unfold fetchTasks. rewrite Hu. simpl.
  assert (forall kd, In kd (queryTasks (uid u) (col_tasks db)) ->
                     withId kd = Task.set_id (Some kd.1) kd.2) as Hwith.
  { intros [k d] [Hd _]%queryTasks_elem. unfold withId. simpl.
    by rewrite (Hnoid k d Hd). }
  split; [|split; [|split; [|split]]].
  - intros t. rewrite in_map_iff. split.
    + intros ([k d] & <- & Hin). rewrite (Hwith _ Hin).
      apply queryTasks_elem in Hin as [Hd Hown]. by exists k, d.
    + intros (k & d & Hd & Hown & ->). exists (k, d).
      assert (In (k, d) (queryTasks (uid u) (col_tasks db))) as Hin
        by (by apply queryTasks_elem).
      split; [by apply Hwith|done].
  - apply fetched_sorted, queryTasks_sorted.
  - assert (map Task.id (map withId (queryTasks (uid u) (col_tasks db)))
            = map Some (map fst (queryTasks (uid u) (col_tasks db)))) as ->.
    { rewrite !map_map. apply map_ext_in. intros kd Hin.
      by rewrite (Hwith kd Hin). }
    pose proof (queryTasks_keys_NoDup (uid u) (col_tasks db)) as Hnd.
    induction (map fst _) as [|k rest IH]; simpl; [constructor|].
    apply NoDup_cons in Hnd as [Hnotin Hnd]. constructor; [|by apply IH].
    intros Hk. apply Hnotin.
    apply list_elem_of_In, in_map_iff in Hk as (k' & [= ->] & Hin).
    by apply list_elem_of_In.
  - done.
  - intros env0 H0. by rewrite H0.
Qed.

Lemma fetchTasks_result_witness :
  let u := mkUser "u1" in
  let env := mkEnv (Some u) 50 "x" in
  let A := Task.set_id None (sampleTask "a" false 4) in
  let B := Task.set_id None (sampleTask "b" true 1) in
  let db := mkFirestore {[ "a" := A; "b" := B ]} ∅ ∅ in
  let s := mk [] true None in
  currentUser env = Some u
  /\ noIdField (col_tasks db)
  /\ (let s' := fetchTasks env db s in
      (forall t,
         In t (tasks s')
         <-> exists k d,
               col_tasks db !! k = Some d /\ Task.userId d = uid u
               /\ t = Task.set_id (Some k) d)
      /\ StronglySorted orderLe (tasks s')
      /\ NoDup (map Task.id (tasks s'))
      /\ loading s' = false
      /\ (forall env0,
            currentUser env0 = None -> tasks (fetchTasks env0 db s) = [])).
Proof.
  intros u env A B db s.
  assert (noIdField (col_tasks db)) as Hnoid.
  { intros k d. simpl. rewrite lookup_insert_Some.
    intros [[_ <-]|[_ H]]; [done|].
    apply lookup_singleton_Some in H as [_ <-]. done. }
  split; [reflexivity|]. split; [exact Hnoid|].
  exact (fetchTasks_result env u db s eq_refl Hnoid).
Defined.

Lemma ordered_unique (tasks xs : list Task.t) :
  StronglySorted orderLt tasks -> xs ≡ₚ tasks ->
  StronglySorted orderLe xs -> xs = tasks.
Proof.
  intros Hs Hp Hxs.
  apply (StronglySorted_unique_strong orderLe); [|done| |done].
  - intros x1 x2 H1 H2 Hle1 Hle2.
    apply (orderLt_same_order tasks); [done| |by apply list_elem_of_In|].
    + apply list_elem_of_In. by rewrite <- Hp.
    + unfold orderLe in *. lia.
  - by apply orderLt_orderLe.
Qed.

Lemma filter_perm {A} (P : A -> bool) (l l' : list A) :
  l ≡ₚ l' -> List.filter P l ≡ₚ List.filter P l'.
Proof.
  induction 1 as [|x l l' _ IH|x y l|l l' l'' _ IH1 _ IH2]; simpl.
  - done.
  - destruct (P x); by rewrite IH.
  - destruct (P x), (P y); try done. apply perm_swap.
  - by rewrite IH1.
Qed.

Lemma fetched_perm (uid : string) (col : gmap string Task.t)
    (l : list (string * Task.t)) :
  List.filter (fun kd => bool_decide (Task.userId kd.2 = uid))
              (map_to_list col) ≡ₚ l ->
  map withId (queryTasks uid col) ≡ₚ map withId l.
Proof. intros Hp. apply Permutation_map. by rewrite queryTasks_perm. Qed.

(** X23.  The list [addTask] leaves in memory is the list a fetch would
    load: when the in-memory list is what the store holds for the user,
    in strictly increasing order, and the id picked for the new task is
    new to the store, then fetching right after [addTask] gives exactly
    the in-memory list. *)
Theorem addTask_agrees_with_store (env : Env) (u : User) (d : taskData)
    (db : Firestore) (s : state)
    (Hu : currentUser env = Some u)
    (Hsync : tasks s = map withId (queryTasks (uid u) (col_tasks db)))
    (Hsorted : StronglySorted orderLt (tasks s))
    (Hnew : col_tasks db !! autoId env = None) :
  let '(_, db', s') := addTask env d db s in
  tasks (fetchTasks env db' s') = tasks s'.
Proof.
  unfold addTask, fetchTasks. rewrite Hu. simpl.
  set (nt := newTask u (now env) (tasks s) d).
  apply ordered_unique.
  - apply StronglySorted_app. split; [|split; [done|repeat constructor]].
    intros x1 x2 Hx1 Hx2. apply list_elem_of_singleton in Hx2 as ->.
    apply list_elem_of_In, highestOrder_upper in Hx1.
    unfold orderLt. simpl. lia.
  - rewrite (fetched_perm _ _ ((autoId env, nt) :: queryTasks (uid u) (col_tasks db))).
    + simpl. rewrite <- Hsync. unfold withId. simpl.
      by rewrite Permutation_app_comm.
    + unfold addDoc. rewrite (filter_perm _ _ _ (map_to_list_insert _ _ _ Hnew)).
      simpl. rewrite bool_decide_eq_true_2 by done.
      by rewrite queryTasks_perm.
  - apply fetched_sorted, queryTasks_sorted.
Qed.

Lemma addTask_agrees_with_store_witness :
  let u := mkUser "u1" in
  let env := mkEnv (Some u) 50 "n" in
  let d := mkData "new" None in
  let A := Task.set_id None (sampleTask "a" false 4) in
  let B := Task.set_id None (sampleTask "b" true 1) in
  let db := mkFirestore {[ "a" := A; "b" := B ]} ∅ ∅ in
  let s := mk [sampleTask "b" true 1; sampleTask "a" false 4] false None in
  currentUser env = Some u
  /\ tasks s = map withId (queryTasks (uid u) (col_tasks db))
  /\ StronglySorted orderLt (tasks s)
  /\ col_tasks db !! autoId env = None
  /\ (let '(_, db', s') := addTask env d db s in
      tasks (fetchTasks env db' s') = tasks s').
Proof.
  intros u env d A B db s.
  assert (tasks s = map withId (queryTasks (uid u) (col_tasks db))) as Hsync
    by (by vm_compute).
  assert (StronglySorted orderLt (tasks s)) as Hsorted
    by (repeat constructor; unfold orderLt; simpl; lia).
  assert (col_tasks db !! autoId env = None) as Hnew by (by vm_compute).
  split; [reflexivity|]. do 3 (split; [assumption|]).
  exact (addTask_agrees_with_store env u d db s eq_refl Hsync Hsorted Hnew).
Defined.

Lemma map_to_list_delete_filter {A} (m : gmap string A) (k : string) :
  map_to_list (delete k m)
  ≡ₚ List.filter (fun kd => negb (bool_decide (kd.1 = k))) (map_to_list m).
Proof.
  assert (forall m' : gmap string A,
            m' !! k = None ->
            List.filter (fun kd => negb (bool_decide (kd.1 = k)))
                        (map_to_list m')
            = map_to_list m') as Hkeep.
  { intros m' Hk. apply filter_all_kept, Forall_forall. intros [k' x] Hin.
    apply elem_of_map_to_list in Hin. simpl.
    apply negb_true_iff, bool_decide_eq_false_2. congruence. }
  destruct (m !! k) as [x|] eqn:Hx.
  - rewrite <- (filter_perm _ _ _ (map_to_list_delete m k x Hx)). simpl.
    rewrite bool_decide_eq_true_2 by done. simpl.
    by rewrite Hkeep by apply lookup_delete_eq.
  - rewrite (delete_id _ _ Hx). by rewrite Hkeep.
Qed.

Lemma filter_filter_comm {A} (P Q : A -> bool) (l : list A) :
  List.filter P (List.filter Q l) = List.filter Q (List.filter P l).
Proof.
  induction l as [|a rest IH]; simpl; [done|].
  destruct (P a) eqn:HP, (Q a) eqn:HQ; simpl; rewrite ?HP, ?HQ, IH; done.
Qed.

Lemma filter_map_withId (k : string) (l : list (string * Task.t)) :
  Forall (fun kd => Task.id kd.2 = None) l ->
  List.filter (fun task => negb (bool_decide (Task.id task = Some k)))
              (map withId l)
  = map withId (List.filter (fun kd => negb (bool_decide (kd.1 = k))) l).
Proof.
  induction 1 as [|[k' d'] rest Hid _ IH]; simpl; [done|].
  simpl in Hid.
  assert (withId (k', d') = Task.set_id (Some k') d') as Hw
    by (unfold withId; simpl; by rewrite Hid).
  rewrite Hw, IH. simpl.
  destruct (decide (k' = k)) as [->|Hne].
  - by rewrite !bool_decide_eq_true_2.
  - rewrite !bool_decide_eq_false_2 by congruence. simpl. by rewrite Hw.
Qed.

(** X24.  The same for [deleteTask]: when the in-memory list is what the
    store holds for the user, in strictly increasing order, fetching right
    after [deleteTask] gives exactly the list the deletion left in
    memory. *)
Theorem deleteTask_agrees_with_store (env : Env) (u : User) (id : string)
    (db : Firestore) (s : state)
    (Hu : currentUser env = Some u)
    (Hnoid : noIdField (col_tasks db))
    (Hsync : tasks s = map withId (queryTasks (uid u) (col_tasks db)))
    (Hsorted : StronglySorted orderLt (tasks s)) :
  let '(_, db', s') := deleteTask env id db s in
  tasks (fetchTasks env db' s') = tasks s'.
Proof.
  unfold deleteTask, fetchTasks. rewrite Hu. simpl.
  apply ordered_unique.
  - by apply filter_strongly_sorted.
  - rewrite Hsync. rewrite filter_map_withId.
    + apply Permutation_map. unfold deleteDoc.
      rewrite !queryTasks_perm.
      rewrite (filter_perm _ _ _ (map_to_list_delete_filter _ _)).
      rewrite (filter_perm _ _ _ (queryTasks_perm _ _)).
      by rewrite filter_filter_comm.
    + apply Forall_forall. intros [k d] Hin.
      apply list_elem_of_In, queryTasks_elem in Hin as [Hd _].
      exact (Hnoid k d Hd).
  - apply fetched_sorted, queryTasks_sorted.
Qed.

Lemma deleteTask_agrees_with_store_witness :
  let u := mkUser "u1" in
  let env := mkEnv (Some u) 50 "n" in
  let A := Task.set_id None (sampleTask "a" false 4) in
  let B := Task.set_id None (sampleTask "b" true 1) in
  let db := mkFirestore {[ "a" := A; "b" := B ]} ∅ ∅ in
  let s := mk [sampleTask "b" true 1; sampleTask "a" false 4] false None in
  currentUser env = Some u
  /\ noIdField (col_tasks db)
  /\ tasks s = map withId (queryTasks (uid u) (col_tasks db))
  /\ StronglySorted orderLt (tasks s)
  /\ (let '(_, db', s') := deleteTask env "b" db s in
      tasks (fetchTasks env db' s') = tasks s').
Proof.
  intros u env A B db s.
  assert (noIdField (col_tasks db)) as Hnoid.
  { intros k d. simpl. rewrite lookup_insert_Some.
    intros [[_ <-]|[_ H]]; [done|].
    apply lookup_singleton_Some in H as [_ <-]. done. }
  assert (tasks s = map withId (queryTasks (uid u) (col_tasks db))) as Hsync
    by (by vm_compute).
  assert (StronglySorted orderLt (tasks s)) as Hsorted
    by (repeat constructor; unfold orderLt; simpl; lia).
  split; [reflexivity|]. do 3 (split; [assumption|]).
  exact (deleteTask_agrees_with_store env u "b" db s eq_refl Hnoid Hsync
           Hsorted).
Defined.
End Fetch.
